(** * The tinyexr recipe (recipes/tinyexr/all/conanfile.py)

    A shallow embedding of the [TinyExrConan] recipe class: its option
    model, its methods ([requirements], [validate], [source], [package_id],
    [_extracted_license], [build], [generate], [package], [package_info])
    and the few Python and Conan primitives those methods call.

    Conventions.
    - A file's content is the text Python reads from it or writes to it
      (UTF-8, newline convention of POSIX), as a [string].
    - The source and build folders are read-only inputs, modelled as trees
      ([node]).  The package folder is the output, modelled as a finite map
      from paths relative to [package_folder] to entries ([gmap]).
    - A filesystem operation that raises [OSError] returns [None]. *)

From stdpp Require Import base option list strings gmap.
From Stdlib Require Import Ascii String.

Local Open Scope string_scope.
Local Open Scope list_scope.
Local Open Scope nat_scope.
Local Open Scope stdpp_scope.

(** ** Python primitives *)

Module Py.

(** The character ["\n"]. *)
Definition newline : ascii := Ascii.ascii_of_nat 10.

(** [file.readlines()]: the lines of a text, each with its terminator. *)
Fixpoint readlines (s : string) : list string :=
  match s with
  | EmptyString => []
  | String c rest =>
      if Ascii.eqb c newline then String c EmptyString :: readlines rest
      else match readlines rest with
           | [] => [String c EmptyString]
           | l :: ls => String c l :: ls
           end
  end.

(** [s.rstrip('\n')]: drops every trailing newline. *)
Fixpoint rstrip_newline (s : string) : string :=
  match s with
  | EmptyString => EmptyString
  | String c rest =>
      match rstrip_newline rest with
      | EmptyString =>
          if Ascii.eqb c newline then EmptyString else String c EmptyString
      | r => String c r
      end
  end.

(** The string ["\n"]. *)
Definition nl : string := String newline EmptyString.

(** [sep.join(l)]. *)
Definition join (sep : string) (l : list string) : string :=
  String.concat sep l.

(** [s.endswith(suffix)]. *)
Definition endswith (s suffix : string) : bool :=
  let n := String.length s in
  let k := String.length suffix in
  (k <=? n)%nat && String.eqb (String.substring (n - k) k s) suffix.

(** [s.endswith((suf1, suf2, ...))]. *)
Definition endswith_any (s : string) (suffixes : list string) : bool :=
  existsb (endswith s) suffixes.

(** [range(lo, hi)]. *)
Definition range (lo hi : nat) : list nat := seq lo (hi - lo).

(** [getattr(obj, name, default)] for an attribute that may be unset. *)
Definition getattr {A} (attr : option A) (default : A) : A :=
  match attr with
  | Some v => v
  | None => default
  end.

End Py.

(** ** Folders *)

(** An input folder: regular files and directories, a directory listing
    its entries in the order [os.scandir] returns them. *)
#[warnings="-register-all"]
Inductive node :=
| File (content : string)
| Dir (entries : list (string * node)).

(** The entry called [name] of a listing. *)
Fixpoint dir_lookup (name : string) (entries : list (string * node)) : option node :=
  match entries with
  | [] => None
  | (n, t) :: rest => if String.eqb n name then Some t else dir_lookup name rest
  end.

(** The node at [os.path.join(folder, name)]. *)
Definition child (folder : node) (name : string) : option node :=
  match folder with
  | File _ => None
  | Dir entries => dir_lookup name entries
  end.

Module os_path.

(** [os.path.exists(os.path.join(folder, name))]. *)
Definition exists_ (folder : node) (name : string) : bool :=
  match child folder name with
  | Some _ => true
  | None => false
  end.

(** [os.path.isfile(os.path.join(folder, name))]. *)
Definition isfile (folder : node) (name : string) : bool :=
  match child folder name with
  | Some (File _) => true
  | _ => false
  end.

End os_path.

(** [open(os.path.join(folder, name), "r").read()] on a regular file;
    [None] when [open] raises. *)
Definition read (folder : node) (name : string) : option string :=
  match child folder name with
  | Some (File c) => Some c
  | _ => None
  end.

(** A path below the package folder, as its components. *)
Abbreviation path := (list string).

(** The names of the subdirectories and the regular files of a listing. *)
Definition dirnames (entries : list (string * node)) : list string :=
  omap (λ e, match e.2 with Dir _ => Some e.1 | File _ => None end) entries.

Definition filenames (entries : list (string * node)) : list string :=
  omap (λ e, match e.2 with File _ => Some e.1 | Dir _ => None end) entries.

(** [os.walk(top)], top-down: one triple [(root, dirs, files)] per
    directory, [root] kept as the directory itself so that it can serve as
    the [src] of a later [copy].  Nothing is yielded when [top] is not a
    directory. *)
Fixpoint walk (top : node) : list (node * list string * list string) :=
  match top with
  | File _ => []
  | Dir entries =>
      (top, dirnames entries, filenames entries)
        :: flat_map (λ e, let '(_, t) := e in walk t) entries
  end.


(** An entry of the package folder. *)
Inductive entry :=
| EFile (content : string)
| EDir.

#[global]
Instance entry_eq_dec : EqDecision entry.
Proof. solve_decision. Defined.

(** The package folder: the entries below it, by relative path.  The
    folder itself (the empty path) always exists. *)
Abbreviation fs := (gmap path entry).

(** [os.path.isdir] below the package folder. *)
Definition isdir (p : path) (m : fs) : bool :=
  match p with
  | [] => true
  | _ => match m !! p with
         | Some EDir => true
         | _ => false
         end
  end.

(** [os.path.dirname]. *)
Definition dirname (p : path) : path := removelast p.

(** A Python [for] loop whose body updates a state (the package folder,
    a list being built) and may raise. *)
Fixpoint for_each {A S} (l : list A) (body : A → S → option S) (s : S) : option S :=
  match l with
  | [] => Some s
  | a :: l' => s' ← body a s; for_each l' body s'
  end.

(** One level of [os.makedirs(p, exist_ok=True)]: [os.mkdir], an existing
    directory being accepted and anything else in the way raising. *)
Definition mkdir_exist_ok (p : path) (m : fs) : option fs :=
  if isdir p m then Some m
  else if negb (isdir (dirname p) m) then None
  else match m !! p with
       | Some _ => None
       | None => Some (<[p := EDir]> m)
       end.

(** The non-empty prefixes of a path, shortest first. *)
Definition prefixes (p : path) : list path :=
  (λ n, take n p) <$> seq 1 (List.length p).

(** [os.makedirs(p, exist_ok=True)]. *)
Definition makedirs (p : path) (m : fs) : option fs :=
  for_each (prefixes p) mkdir_exist_ok m.

(** [open(p, "w").write(content)]: raises when the parent is not a
    directory or [p] is one. *)
Definition write_text (p : path) (content : string) (m : fs) : option fs :=
  if negb (isdir (dirname p) m) then None
  else match m !! p with
       | Some EDir => None
       | _ => Some (<[p := EFile content]> m)
       end.

(** [conan.tools.files.save(conanfile, p, content)]. *)
Definition save (p : path) (content : string) (m : fs) : option fs :=
  m' ← makedirs (dirname p) m;
  write_text p content m'.

(** [shutil.copy2(src_file, dst)] for a regular source file called [name]
    with content [content]: a [dst] that is a directory receives the file
    under its own name. *)
Definition copy2 (name content : string) (dst : path) (m : fs) : option fs :=
  if isdir dst m then write_text (dst ++ [name]) content m
  else write_text dst content m.

(** [conan.tools.files.copy(conanfile, pattern, src, dst)] for a [pattern]
    that is a plain file name, as in every call of the recipe: the regular
    file of that name directly below [src], if there is one, is copied to
    [dst] under the same name, [dst] being created on the way.  No match
    copies nothing.  (Conan skips the copy of a file that is already there
    with equal content; the outcome is the same.) *)
Definition copy (pattern : string) (src : node) (dst : path) (m : fs) : option fs :=
  match child src pattern with
  | Some (File content) =>
      m' ← makedirs dst m;
      copy2 pattern content (dst ++ [pattern]) m'
  | _ => Some m
  end.

(** ** Conan primitives *)

(** The values of the [compiler.cppstd] setting: a language standard, with
    or without the GNU extensions ("11", "gnu11", ...). *)
Inductive CppVersion := Cpp98 | Cpp11 | Cpp14 | Cpp17 | Cpp20 | Cpp23 | Cpp26.

Record Cppstd := { std : CppVersion; gnu : bool }.

(** The year of a standard, by which Conan orders them. *)
Definition year (v : CppVersion) : nat :=
  match v with
  | Cpp98 => 1998
  | Cpp11 => 2011
  | Cpp14 => 2014
  | Cpp17 => 2017
  | Cpp20 => 2020
  | Cpp23 => 2023
  | Cpp26 => 2026
  end.

(** The exception of an invalid configuration (the spec's
    [UnsupportedToolchain]). *)
Inductive exn := ConanInvalidConfiguration.

Inductive outcome := Passed | Raised (e : exn).

(** Modelled from the spec: [conan.tools.build.check_min_cppstd], a helper
    of the Conan library that the recipe imports and that is not part of
    this repository.  It fails when the configured standard is below the
    required minimum (and when no standard is configured at all). *)
Definition check_min_cppstd (current : option Cppstd) (minimum : CppVersion) : outcome :=
  match current with
  | None => Raised ConanInvalidConfiguration
  | Some c =>
      if (year (std c) <? year minimum)%nat then Raised ConanInvalidConfiguration
      else Passed
  end.

(** What a method asks of the build system, in the order of the calls. *)
Inductive event :=
| ApplyPatches
| ToolchainGenerate (variables : list (string * string))
| DepsGenerate
| CMakeConfigure
| CMakeBuild.

(** [self.info]: what the package identity is computed from. *)
Record Info := {
  info_settings : list (string * string);
  info_options : list (string * string);
  info_requires : list string;
}.

(** [self.info.clear()]. *)
Definition info_clear (_ : Info) : Info :=
  {| info_settings := []; info_options := []; info_requires := [] |}.

(** [self.cpp_info]. *)
Record CppInfo := {
  defines : list string;
  libs : list string;
  includedirs : list string;
  libdirs : list string;
  bindirs : list string;
  system_libs : list string;
}.

(** The [cpp_info] Conan hands to [package_info]. *)
Definition new_cpp_info : CppInfo :=
  {| defines := []; libs := []; includedirs := ["include"];
     libdirs := ["lib"]; bindirs := ["bin"]; system_libs := [] |}.

Definition defines_append (d : string) (ci : CppInfo) : CppInfo :=
  {| defines := defines ci ++ [d]; libs := libs ci;
     includedirs := includedirs ci; libdirs := libdirs ci;
     bindirs := bindirs ci; system_libs := system_libs ci |}.

Definition set_libs (l : list string) (ci : CppInfo) : CppInfo :=
  {| defines := defines ci; libs := l;
     includedirs := includedirs ci; libdirs := libdirs ci;
     bindirs := bindirs ci; system_libs := system_libs ci |}.

Definition set_libdirs (l : list string) (ci : CppInfo) : CppInfo :=
  {| defines := defines ci; libs := libs ci;
     includedirs := includedirs ci; libdirs := l;
     bindirs := bindirs ci; system_libs := system_libs ci |}.

Definition set_bindirs (l : list string) (ci : CppInfo) : CppInfo :=
  {| defines := defines ci; libs := libs ci;
     includedirs := includedirs ci; libdirs := libdirs ci;
     bindirs := l; system_libs := system_libs ci |}.

Definition system_libs_append (l : string) (ci : CppInfo) : CppInfo :=
  {| defines := defines ci; libs := libs ci;
     includedirs := includedirs ci; libdirs := libdirs ci;
     bindirs := bindirs ci; system_libs := system_libs ci ++ [l] |}.

(** ** The recipe *)

(** The domain of [with_z]: ["zlib"] or ["miniz"]. *)
Inductive ZImpl := zlib | miniz.

#[global]
Instance ZImpl_eq_dec : EqDecision ZImpl.
Proof. solve_decision. Defined.

Definition z_name (z : ZImpl) : string :=
  match z with
  | zlib => "zlib"
  | miniz => "miniz"
  end.

(** [options], each with its declared domain. *)
Record Options := {
  with_z : ZImpl;
  with_piz : bool;
  with_zfp : bool;
  with_thread : bool;
  with_openmp : bool;
  shared : bool;
}.

Definition default_options : Options :=
  {| with_z := miniz; with_piz := true; with_zfp := false;
     with_thread := false; with_openmp := false; shared := false |}.

(** [settings]: os, arch, compiler (with its optional [cppstd]) and
    build_type. *)
Record Settings := {
  os : string;
  arch : string;
  compiler : string;
  cppstd : option Cppstd;
  build_type : string;
}.

(** The state of a [TinyExrConan] object.  [_header_only] is an attribute
    that only [source] sets: [None] while it is unset. *)
Record TinyExrConan := {
  options : Options;
  settings : Settings;
  _header_only : option bool;
  source_folder : node;
  build_folder : node;
  info : Info;
  cpp_info : CppInfo;
}.

Definition set_header_only (b : bool) (self : TinyExrConan) : TinyExrConan :=
  {| options := options self; settings := settings self;
     _header_only := Some b; source_folder := source_folder self;
     build_folder := build_folder self; info := info self;
     cpp_info := cpp_info self |}.

Definition set_source_folder (t : node) (self : TinyExrConan) : TinyExrConan :=
  {| options := options self; settings := settings self;
     _header_only := _header_only self; source_folder := t;
     build_folder := build_folder self; info := info self;
     cpp_info := cpp_info self |}.

Definition set_info (i : Info) (self : TinyExrConan) : TinyExrConan :=
  {| options := options self; settings := settings self;
     _header_only := _header_only self; source_folder := source_folder self;
     build_folder := build_folder self; info := i;
     cpp_info := cpp_info self |}.

Definition set_cpp_info (ci : CppInfo) (self : TinyExrConan) : TinyExrConan :=
  {| options := options self; settings := settings self;
     _header_only := _header_only self; source_folder := source_folder self;
     build_folder := build_folder self; info := info self;
     cpp_info := ci |}.

(** [self.options.with_z == "miniz"]. *)
Definition with_z_is (self : TinyExrConan) (name : string) : bool :=
  String.eqb (z_name (with_z (options self))) name.

(** [getattr(self, "_header_only", False)]. *)
Definition header_only (self : TinyExrConan) : bool :=
  Py.getattr (_header_only self) false.

(** [requirements]: the references passed to [self.requires], in order. *)
Definition requirements (self : TinyExrConan) : list string :=
  (if with_z_is self "miniz" then ["miniz/3.0.2"] else ["zlib/[>=1.2.11 <2]"])
    ++ (if with_zfp (options self) then ["zfp/1.0.0"] else []).

(** [validate]. *)
Definition validate (self : TinyExrConan) : outcome :=
  if with_thread (options self) && bool_decide (is_Some (cppstd (settings self)))
  then check_min_cppstd (cppstd (settings self)) Cpp11
  else Passed.

(** [source]: [get] leaves the downloaded tree [fetched] in the source
    folder; a release without [tinyexr.cc] is header-only. *)
Definition source (fetched : node) (self : TinyExrConan) : TinyExrConan :=
  let self := set_source_folder fetched self in
  set_header_only (negb (os_path.exists_ (source_folder self) "tinyexr.cc")) self.

(** [package_id]. *)
Definition package_id (self : TinyExrConan) : TinyExrConan :=
  if header_only self then set_info (info_clear (info self)) self
  else self.

(** [_extracted_license]; [None] stands for an exception ([open] failing,
    an index out of range). *)
Definition _extracted_license (self : TinyExrConan) : option string :=
  if os_path.isfile (source_folder self) "LICENSE" then
    read (source_folder self) "LICENSE"
  else if os_path.isfile (source_folder self) "tinyexr.h" then
    content_lines ← Py.readlines <$> read (source_folder self) "tinyexr.h";
    license_content ←
      for_each
        (Py.range (0 `min` List.length content_lines)
                  (40 `min` List.length content_lines))
        (λ i (license_content : list string),
           line ← content_lines !! i;
           Some (license_content ++ [Py.rstrip_newline line])%list)
        [];
    Some (Py.join Py.nl license_content)
  else Some "".

(** [build]. *)
Definition build (self : TinyExrConan) : list event :=
  ApplyPatches ::
    (if header_only self then []
     else [CMakeConfigure; CMakeBuild]).

Definition on_off (b : bool) : string := if b then "ON" else "OFF".

(** [generate]. *)
Definition generate (self : TinyExrConan) : list event :=
  if header_only self then []
  else
    [ ToolchainGenerate
        [ ("TINYEXR_USE_MINIZ", on_off (with_z_is self "miniz"));
          ("TINYEXR_USE_PIZ", on_off (with_piz (options self)));
          ("TINYEXR_USE_ZFP", on_off (with_zfp (options self)));
          ("TINYEXR_USE_THREAD", on_off (with_thread (options self)));
          ("TINYEXR_USE_OPENMP", on_off (with_openmp (options self)));
          ("TINYEXR_BUILD_SAMPLE", "OFF");
          ("BUILD_SHARED_LIBS", on_off (shared (options self))) ];
      DepsGenerate ].

(** [package], on the machine whose [os.name] is [os_name]. *)
Definition package (os_name : string) (self : TinyExrConan) (m : fs) : option fs :=
  let license_folder := ["licenses"] in
  m ← makedirs license_folder m;
  license ← _extracted_license self;
  m ← save (license_folder ++ ["LICENSE"]) license m;
  m ← copy "tinyexr.h" (source_folder self) ["include"] m;
  if negb (header_only self) then
    let lib_dst := ["lib"] in
    m ← makedirs lib_dst m;
    m ← for_each (walk (build_folder self)) (λ '(root, _dirs, files),
          for_each files (λ fname m,
            if Py.endswith_any fname [".lib"; ".a"; ".so"; ".dylib"]
            then copy fname root lib_dst m
            else Some m)) m;
    let bin_dst := ["bin"] in
    m ← makedirs bin_dst m;
    for_each (walk (build_folder self)) (λ '(root, _dirs, files),
      for_each files (λ fname m,
        if String.eqb os_name "nt"
           && (Py.endswith fname ".exe" || Py.endswith fname ".dll")
        then copy fname root bin_dst m
        else Some m)) m
  else Some m.

Definition flag (b : bool) : string := if b then "1" else "0".

(** [package_info]. *)
Definition package_info (self : TinyExrConan) : TinyExrConan :=
  let ci := cpp_info self in
  let ci := defines_append ("TINYEXR_USE_MINIZ=" +:+ flag (with_z_is self "miniz")) ci in
  let ci := defines_append ("TINYEXR_USE_PIZ=" +:+ flag (with_piz (options self))) ci in
  let ci := defines_append ("TINYEXR_USE_ZFP=" +:+ flag (with_zfp (options self))) ci in
  let ci := defines_append ("TINYEXR_USE_THREAD=" +:+ flag (with_thread (options self))) ci in
  let ci := defines_append ("TINYEXR_USE_OPENMP=" +:+ flag (with_openmp (options self))) ci in
  let ci :=
    if header_only self then set_libdirs [] (set_bindirs [] ci)
    else set_libs ["tinyexr"] ci in
  let ci :=
    if bool_decide (os (settings self) ∈ ["Linux"; "FreeBSD"])
       && with_thread (options self)
    then system_libs_append "pthread" ci
    else ci in
  set_cpp_info ci self.

(** The spec's BuildMode, as the operations read it off the attribute. *)
Inductive BuildMode := HeaderOnly | Compiled.

Definition build_mode (self : TinyExrConan) : BuildMode :=
  if header_only self then HeaderOnly else Compiled.

(** ** Notions used to state and prove the properties *)

(** Whether an entry of the package folder is a directory. *)
Definition is_dir (e : entry) : bool :=
  match e with
  | EDir => true
  | EFile _ => false
  end.

(** [t] has every entry of [s], each of the same kind (directory or
    regular file) as in [s]; contents may differ. *)
Definition kinds_kept (s t : fs) : Prop :=
  ∀ k x, s !! k = Some x → ∃ y, t !! k = Some y ∧ is_dir y = is_dir x.

(** A log of writes, applied in order. *)
Definition puts (log : list (path * entry)) (m : fs) : fs :=
  foldl (λ m kv, <[kv.1 := kv.2]> m) m log.

(** An operation replays: a successful run amounts to a log of writes that
    keeps the kind of every entry, and from any folder that has the
    entries of the outcome, with their kinds, the operation succeeds again
    with the same log. *)
Definition replays (f : fs → option fs) : Prop :=
  ∀ s s', f s = Some s' →
    ∃ log, s' = puts log s ∧ kinds_kept s s' ∧
      ∀ t, kinds_kept s' t → f t = Some (puts log t) ∧ kinds_kept t (puts log t).

(** The layout [package] produces: directories at depth one, regular files
    at depth two, nothing else. *)
Definition layout (m : fs) : Prop :=
  ∀ p e, m !! p = Some e →
    (List.length p = 1 ∧ e = EDir) ∨ (List.length p = 2 ∧ is_dir e = false).

(** An operation that cannot fail on a folder of that layout, and keeps
    it. *)
Definition total_on_layout (f : fs → option fs) : Prop :=
  ∀ m, layout m → ∃ m', f m = Some m' ∧ layout m'.

(** ** Sample recipe states *)

Definition sample_settings : Settings :=
  {| os := "Linux"; arch := "x86_64"; compiler := "gcc";
     cppstd := None; build_type := "Release" |}.

Definition sample_info : Info :=
  {| info_settings := [("os", "Linux"); ("arch", "x86_64")];
     info_options := [("with_z", "miniz")];
     info_requires := ["miniz/3.0.2"] |}.

Definition sample_header : string :=
  "/* BSD-3-Clause */" +:+ Py.nl +:+ "#pragma once" +:+ Py.nl.

(** A header-only release without a LICENSE file. *)
Definition header_only_tree : node :=
  Dir [("README.md", File "tinyexr"); ("tinyexr.h", File sample_header)].

(** A release with a translation unit and a LICENSE file. *)
Definition compiled_tree : node :=
  Dir [("LICENSE", File "BSD");
       ("tinyexr.h", File "#pragma once");
       ("tinyexr.cc", File "#include <tinyexr.h>")].

Definition sample_build_tree : node :=
  Dir [("libtinyexr.a", File "AR");
       ("CMakeFiles", Dir [("tinyexr.dll", File "DLL"); ("a.o", File "O")])].

(** The recipe object before [source] has run. *)
Definition fresh_recipe : TinyExrConan :=
  {| options := default_options; settings := sample_settings;
     _header_only := None; source_folder := Dir [];
     build_folder := sample_build_tree; info := sample_info;
     cpp_info := new_cpp_info |}.

Definition header_only_recipe : TinyExrConan := source header_only_tree fresh_recipe.

Definition compiled_recipe : TinyExrConan := source compiled_tree fresh_recipe.

(** A recipe object whose source folder holds a header-only release on
    which [source] has not run: the attribute is unset. *)
Definition undetected_recipe : TinyExrConan :=
  {| options := default_options; settings := sample_settings;
     _header_only := None; source_folder := header_only_tree;
     build_folder := Dir []; info := sample_info;
     cpp_info := new_cpp_info |}.

(** A header-only recipe on another platform, with other options. *)
Definition other_header_only_recipe : TinyExrConan :=
  {| options := {| with_z := zlib; with_piz := false; with_zfp := true;
                   with_thread := true; with_openmp := false; shared := false |};
     settings := {| os := "Windows"; arch := "armv8"; compiler := "msvc";
                    cppstd := Some {| std := Cpp17; gnu := false |};
                    build_type := "Debug" |};
     _header_only := Some true; source_folder := header_only_tree;
     build_folder := Dir [];
     info := {| info_settings := [("os", "Windows"); ("arch", "armv8")];
                info_options := [("with_z", "zlib")];
                info_requires := ["zlib/[>=1.2.11 <2]"; "zfp/1.0.0"] |};
     cpp_info := new_cpp_info |}.

(** What [package] leaves in an empty package folder for the header-only
    sample: the license and the header. *)
Definition header_only_package : fs :=
  list_to_map
    [ (["licenses"], EDir);
      (["licenses"; "LICENSE"],
       EFile ("/* BSD-3-Clause */" +:+ Py.nl +:+ "#pragma once"));
      (["include"], EDir);
      (["include"; "tinyexr.h"], EFile sample_header) ].

(** And for the compiled sample, on a POSIX machine. *)
Definition compiled_package : fs :=
  list_to_map
    [ (["licenses"], EDir);
      (["licenses"; "LICENSE"], EFile "BSD");
      (["include"], EDir);
      (["include"; "tinyexr.h"], EFile "#pragma once");
      (["lib"], EDir);
      (["lib"; "libtinyexr.a"], EFile "AR");
      (["bin"], EDir) ].

(** ** Notions used to describe a finished package *)

(** The number of newline characters of a text. *)
Fixpoint count_newlines (s : string) : nat :=
  match s with
  | EmptyString => 0
  | String c rest =>
      (if Ascii.eqb c Py.newline then 1 else 0) + count_newlines rest
  end.

(** The test of the first loop of [package]: a library, by its suffix. *)
Definition is_library (fname : string) : bool :=
  Py.endswith_any fname [".lib"; ".a"; ".so"; ".dylib"].

(** The test of the second loop of [package]: an executable or a DLL, on
    a machine whose [os.name] is ["nt"]. *)
Definition is_runtime (os_name fname : string) : bool :=
  String.eqb os_name "nt"
  && (Py.endswith fname ".exe" || Py.endswith fname ".dll").

(** On a folder that has the layout of a package, the operation completes
    and amounts to the log of writes, and the layout is kept. *)
Definition writes (f : fs → option fs) (log : list (path * entry)) : Prop :=
  ∀ m, layout m → f m = Some (puts log m) ∧ layout (puts log m).

(** The writes of [copy pattern src [d]]. *)
Definition copy_log (pattern : string) (src : node) (d : string) : list (path * entry) :=
  match child src pattern with
  | Some (File content) => [([d], EDir); ([d; pattern], EFile content)]
  | _ => []
  end.

(** The writes of a loop of [package] over [os.walk]. *)
Definition copy_loop_log (select : string → bool) (d : string)
    (items : list (node * list string * list string)) : list (path * entry) :=
  item ← items;
  fname ← item.2;
  if select fname then copy_log fname item.1.1 d else [].

(** The writes of [package], [license] being the extracted license. *)
Definition package_log (os_name : string) (self : TinyExrConan) (license : string)
    : list (path * entry) :=
  [(["licenses"], EDir); (["licenses"], EDir);
   (["licenses"; "LICENSE"], EFile license)]
  ++ copy_log "tinyexr.h" (source_folder self) "include"
  ++ (if header_only self then []
      else (["lib"], EDir)
             :: copy_loop_log is_library "lib" (walk (build_folder self))
             ++ (["bin"], EDir)
             :: copy_loop_log (is_runtime os_name) "bin" (walk (build_folder self))).

(** A build tree with the same library in two directories. *)
Definition duplicate_build_tree : node :=
  Dir [("libtinyexr.a", File "OLD");
       ("Release", Dir [("libtinyexr.a", File "NEW")])].

Definition duplicate_recipe : TinyExrConan :=
  {| options := default_options; settings := sample_settings;
     _header_only := Some false; source_folder := compiled_tree;
     build_folder := duplicate_build_tree; info := sample_info;
     cpp_info := new_cpp_info |}.

Definition duplicate_package : fs :=
  list_to_map
    [ (["licenses"], EDir);
      (["licenses"; "LICENSE"], EFile "BSD");
      (["include"], EDir);
      (["include"; "tinyexr.h"], EFile "#pragma once");
      (["lib"], EDir);
      (["lib"; "libtinyexr.a"], EFile "NEW");
      (["bin"], EDir) ].

(** What [package] leaves for the compiled sample on a Windows machine. *)
Definition windows_package : fs :=
  list_to_map
    [ (["licenses"], EDir);
      (["licenses"; "LICENSE"], EFile "BSD");
      (["include"], EDir);
      (["include"; "tinyexr.h"], EFile "#pragma once");
      (["lib"], EDir);
      (["lib"; "libtinyexr.a"], EFile "AR");
      (["bin"], EDir);
      (["bin"; "tinyexr.dll"], EFile "DLL") ].

(** A compiled recipe with threads, on Linux. *)
Definition threaded_recipe : TinyExrConan :=
  {| options := {| with_z := miniz; with_piz := true; with_zfp := false;
                   with_thread := true; with_openmp := false; shared := true |};
     settings := sample_settings; _header_only := Some false;
     source_folder := compiled_tree; build_folder := sample_build_tree;
     info := sample_info; cpp_info := new_cpp_info |}.

(** * Properties *)

(** Closed decidable facts about the samples are settled by evaluating
    their decision procedure. *)
Ltac by_evaluation :=
  match goal with
  | |- ?P => apply (@bool_decide_unpack P _); vm_compute; exact I
  end.

(** ** License extraction *)

Lemma for_each_lines (f : string → string) (lines : list string) :
  ∀ (n a : nat) (acc : list string),
    a + n ≤ List.length lines →
    for_each (seq a n)
      (λ i (acc : list string), line ← lines !! i; Some (acc ++ [f line])%list) acc
    = Some (acc ++ (f <$> take n (drop a lines)))%list.
Proof.
  induction n as [|n IH]; intros a acc Hlen; simpl.
  - by rewrite app_nil_r.
  - destruct (lookup_lt_is_Some_2 lines a) as [line Hline]; [lia|].
    rewrite Hline. simpl. rewrite IH by lia.
    rewrite (drop_S _ _ _ Hline). simpl.
    by rewrite <- app_assoc.
Qed.

Lemma extracted_license_range (lines : list string) :
  for_each
    (Py.range (0 `min` List.length lines) (40 `min` List.length lines))
    (λ i (acc : list string),
       line ← lines !! i; Some (acc ++ [Py.rstrip_newline line])%list) []
  = Some (Py.rstrip_newline <$> take 40 lines).
Proof.
  unfold Py.range. rewrite Nat.min_0_l, Nat.sub_0_r.
  rewrite for_each_lines by lia.
  rewrite drop_0, app_nil_l.
  destruct (Nat.min_spec 40 (List.length lines)) as [[? ->]|[? ->]]; [done|].
  by rewrite !take_ge by lia.
Qed.

(** C1 (as amended): when LICENSE is not a regular file of the source tree
    and tinyexr.h is one, the fallback iterates over
    range(0, min(40, n)) and returns the first min(40, n) lines of the
    header, their newlines stripped, joined by newlines. *)
Theorem extracted_license_fallback (self : TinyExrConan) (content : string) :
  os_path.isfile (source_folder self) "LICENSE" = false →
  read (source_folder self) "tinyexr.h" = Some content →
  _extracted_license self
  = Some (Py.join Py.nl (Py.rstrip_newline <$> take 40 (Py.readlines content))).
Proof.
  intros Hlic Hhdr. unfold _extracted_license. rewrite Hlic.
  assert (os_path.isfile (source_folder self) "tinyexr.h" = true) as ->.
  { unfold os_path.isfile. unfold read in Hhdr.
    destruct (child _ _) as [[]|]; by simplify_eq. }
  rewrite Hhdr. cbn [fmap option_fmap option_map mbind option_bind].
  by rewrite extracted_license_range.
Qed.

Lemma extracted_license_fallback_witness :
  _extracted_license header_only_recipe
  = Some (Py.join Py.nl
            (Py.rstrip_newline <$> take 40 (Py.readlines sample_header))).
Proof.
  apply (extracted_license_fallback header_only_recipe sample_header);
    reflexivity.
Defined.

(** C1 (as stated) fails: a source tree without LICENSE whose tinyexr.h
    has two lines yields both lines, not an empty license. *)
Lemma extracted_license_fallback_not_empty :
  os_path.exists_ (source_folder header_only_recipe) "LICENSE" = false ∧
  os_path.isfile (source_folder header_only_recipe) "tinyexr.h" = true ∧
  _extracted_license header_only_recipe
  = Some ("/* BSD-3-Clause */" +:+ Py.nl +:+ "#pragma once") ∧
  _extracted_license header_only_recipe ≠ Some "".
Proof. repeat split; try reflexivity. by vm_compute. Qed.

(** ** Build mode *)

(** C2: after [source], the build mode is HeaderOnly exactly when the
    fetched tree has no entry tinyexr.cc at its root and Compiled
    otherwise; it depends on the tree alone, and running [source] again on
    the same tree changes nothing. *)
Theorem source_build_mode (fetched : node) (self self' : TinyExrConan) :
  (build_mode (source fetched self) = HeaderOnly
   ↔ os_path.exists_ fetched "tinyexr.cc" = false) ∧
  (build_mode (source fetched self) = Compiled
   ↔ os_path.exists_ fetched "tinyexr.cc" = true) ∧
  build_mode (source fetched self) = build_mode (source fetched self') ∧
  source fetched (source fetched self) = source fetched self.
Proof.
  unfold build_mode, header_only, source. simpl.
  destruct (os_path.exists_ fetched "tinyexr.cc"); simpl; naive_solver.
Qed.

(** ** Consumption metadata *)


(** ** Validation *)

(** C5: [validate] raises exactly when with_thread is enabled, a language
    standard is configured and that standard is older than C++11; with
    with_thread enabled and no standard configured it passes. *)
Theorem validate_raises_iff (self : TinyExrConan) :
  (validate self = Raised ConanInvalidConfiguration
   ↔ with_thread (options self) = true ∧
     ∃ c, cppstd (settings self) = Some c ∧ year (std c) < year Cpp11) ∧
  (with_thread (options self) = true →
   cppstd (settings self) = None →
   validate self = Passed).
Proof.
  unfold validate, check_min_cppstd.
  destruct (with_thread (options self)), (cppstd (settings self)) as [c|];
    cbn [andb].
  - rewrite bool_decide_true by eauto.
    split; [|done]. destruct (Nat.ltb_spec (year (std c)) (year Cpp11)).
    + naive_solver.
    + split; [done|]. intros [_ (c' & [= <-] & ?)]. lia.
  - rewrite bool_decide_false by (by intros [??]). naive_solver.
  - naive_solver.
  - naive_solver.
Qed.

Lemma validate_raises_iff_witness :
  validate (set_header_only true
              {| options := {| with_z := miniz; with_piz := true; with_zfp := false;
                               with_thread := true; with_openmp := false;
                               shared := false |};
                 settings := sample_settings; _header_only := None;
                 source_folder := header_only_tree; build_folder := Dir [];
                 info := sample_info; cpp_info := new_cpp_info |})
  = Passed.
Proof. apply validate_raises_iff; reflexivity. Defined.

(** ** Dependencies *)

(** C6: the requirements are one of miniz/3.0.2 and zlib, chosen by
    with_z, followed by zfp/1.0.0 exactly when with_zfp is set; nothing
    else, no duplicates, and the same ordered list for the same options. *)
Theorem requirements_by_options (self : TinyExrConan) :
  requirements self
  = (match with_z (options self) with
     | miniz => ["miniz/3.0.2"]
     | zlib => ["zlib/[>=1.2.11 <2]"]
     end) ++ (if with_zfp (options self) then ["zfp/1.0.0"] else []) ∧
  NoDup (requirements self) ∧
  (∀ r, r ∈ requirements self ↔
     (r = "miniz/3.0.2" ∧ with_z (options self) = miniz) ∨
     (r = "zlib/[>=1.2.11 <2]" ∧ with_z (options self) = zlib) ∨
     (r = "zfp/1.0.0" ∧ with_zfp (options self) = true)) ∧
  (∀ other, options other = options self → requirements other = requirements self).
Proof.
  unfold requirements, with_z_is.
  destruct (with_z (options self)) eqn:Hz, (with_zfp (options self)) eqn:Hzfp;
    simpl; split_and!; try done.
  all: try (intros r; rewrite ?elem_of_cons, ?elem_of_nil; naive_solver).
  all: try (intros other ->; by rewrite Hz, Hzfp).
  all: repeat (apply NoDup_cons; split;
                 [rewrite ?elem_of_cons, ?elem_of_nil; naive_solver|]);
    apply NoDup_nil_2.
Qed.

Lemma requirements_by_options_witness :
  requirements compiled_recipe = requirements header_only_recipe.
Proof. apply requirements_by_options; reflexivity. Defined.

(** ** Toolchain invocation *)

(** C8 (as amended): once [source] has run on the tree, a toolchain is
    invoked exactly when the tree has tinyexr.cc: on a tree without it
    [generate] produces nothing and [build] only applies the patches, on a
    tree with it [generate] writes the toolchain and the dependency files
    and [build] configures and builds.  In any state, [_header_only] being
    true rules out every toolchain step; a recipe on which detection has
    not run is not covered, whatever its source tree. *)
Theorem toolchain_only_when_compiled (fetched : node) (self : TinyExrConan) :
  (os_path.exists_ fetched "tinyexr.cc" = false →
   generate (source fetched self) = [] ∧
   build (source fetched self) = [ApplyPatches]) ∧
  (os_path.exists_ fetched "tinyexr.cc" = true →
   (∃ variables,
      generate (source fetched self) = [ToolchainGenerate variables; DepsGenerate]) ∧
   build (source fetched self) = [ApplyPatches; CMakeConfigure; CMakeBuild]) ∧
  (_header_only self = Some true →
   generate self = [] ∧ build self = [ApplyPatches]) ∧
  (generate self ≠ [] ∨ CMakeConfigure ∈ build self ∨ CMakeBuild ∈ build self →
   _header_only self ≠ Some true).
Proof.
  unfold generate, build, source, header_only. simpl.
  split_and!.
  - by intros ->.
  - intros ->. simpl. eauto.
  - by intros ->.
  - intros Hrun Hset. rewrite Hset in Hrun. simpl in Hrun.
    rewrite !elem_of_cons, !elem_of_nil in Hrun. naive_solver.
Qed.

Lemma toolchain_only_when_compiled_witness :
  generate (source header_only_tree fresh_recipe) = [] ∧
  build (source header_only_tree fresh_recipe) = [ApplyPatches].
Proof.
  apply (toolchain_only_when_compiled header_only_tree fresh_recipe).
  reflexivity.
Defined.

(** C8 (as stated) fails: on a header-only source tree on which [source]
    has not run in this process, so that [_header_only] is unset,
    [generate] writes the toolchain and [build] configures and builds. *)
Lemma toolchain_invoked_when_undetected :
  os_path.exists_ (source_folder undetected_recipe) "tinyexr.cc" = false ∧
  _header_only undetected_recipe = None ∧
  generate undetected_recipe
  = [ ToolchainGenerate
        [ ("TINYEXR_USE_MINIZ", "ON"); ("TINYEXR_USE_PIZ", "ON");
          ("TINYEXR_USE_ZFP", "OFF"); ("TINYEXR_USE_THREAD", "OFF");
          ("TINYEXR_USE_OPENMP", "OFF"); ("TINYEXR_BUILD_SAMPLE", "OFF");
          ("BUILD_SHARED_LIBS", "OFF") ];
      DepsGenerate ] ∧
  build undetected_recipe = [ApplyPatches; CMakeConfigure; CMakeBuild].
Proof. repeat split; reflexivity. Qed.

(** ** Package identity *)

(** C9: when header-only, [package_id] clears [info], so any two
    header-only recipes, whatever their settings and options, end with the
    same [info]; otherwise [package_id] changes nothing, so recipes whose
    [info] differ keep differing. *)
Theorem package_id_header_only (s1 s2 : TinyExrConan) :
  (header_only s1 = true → header_only s2 = true →
   info (package_id s1) = info (package_id s2)) ∧
  (header_only s1 = false → package_id s1 = s1) ∧
  (header_only s1 = false → header_only s2 = false →
   info s1 ≠ info s2 → info (package_id s1) ≠ info (package_id s2)).
Proof.
  unfold package_id. split_and!.
  - by intros -> ->.
  - by intros ->.
  - by intros -> ->.
Qed.

Lemma package_id_header_only_witness :
  info (package_id header_only_recipe) = info (package_id other_header_only_recipe).
Proof.
  apply (package_id_header_only header_only_recipe other_header_only_recipe);
    reflexivity.
Defined.

(** ** The package folder: kinds, logs and replays *)

Lemma kinds_kept_refl (s : fs) : kinds_kept s s.
Proof. intros k x Hk. eauto. Qed.

Lemma kinds_kept_trans (s t u : fs) :
  kinds_kept s t → kinds_kept t u → kinds_kept s u.
Proof.
  intros Hst Htu k x Hk.
  destruct (Hst k x Hk) as (y & Hy & Hxy).
  destruct (Htu k y Hy) as (z & Hz & Hyz).
  exists z. split; [done|congruence].
Qed.

Lemma kinds_kept_dir (s t : fs) (p : path) :
  kinds_kept s t → s !! p = Some EDir → t !! p = Some EDir.
Proof.
  intros Hst Hp. destruct (Hst p EDir Hp) as ([] & Hy & Hk); by simplify_eq/=.
Qed.

Lemma kinds_kept_file (s t : fs) (p : path) (c : string) :
  kinds_kept s t → s !! p = Some (EFile c) → ∃ c', t !! p = Some (EFile c').
Proof.
  intros Hst Hp. destruct (Hst p _ Hp) as ([] & Hy & Hk); simplify_eq/=; eauto.
Qed.

Lemma kinds_kept_insert (s : fs) (p : path) (e : entry) :
  (∀ x, s !! p = Some x → is_dir x = is_dir e) →
  kinds_kept s (<[p := e]> s).
Proof.
  intros Hp k x Hk. destruct (decide (p = k)) as [->|Hne].
  - rewrite lookup_insert_eq. exists e. split; [done|]. symmetry. eauto.
  - rewrite lookup_insert_ne by done. eauto.
Qed.

Lemma isdir_kept (s t : fs) (p : path) :
  kinds_kept s t → isdir p s = true → isdir p t = true.
Proof.
  intros Hst. unfold isdir. destruct p as [|d p]; [done|].
  destruct (s !! (d :: p)) as [[]|] eqn:Hs; try done.
  intros _. by rewrite (kinds_kept_dir _ _ _ Hst Hs).
Qed.

Lemma isdir_lookup (m : fs) (p : path) :
  p ≠ [] → isdir p m = true ↔ m !! p = Some EDir.
Proof.
  intros Hp. unfold isdir. destruct p; [done|].
  destruct (m !! _) as [[]|]; naive_solver.
Qed.

Lemma puts_app (l1 l2 : list (path * entry)) (m : fs) :
  puts (l1 ++ l2) m = puts l2 (puts l1 m).
Proof. apply foldl_app. Qed.

Lemma puts_union (log : list (path * entry)) (m : fs) :
  puts log m = list_to_map (reverse log) ∪ m.
Proof.
  revert m. induction log as [|[k v] log IH]; intros m; simpl.
  - by rewrite (left_id_L ∅ (∪)).
  - rewrite IH, reverse_cons, list_to_map_app. simpl.
    rewrite insert_empty, <- (assoc_L (∪)).
    by rewrite <- insert_union_singleton_l.
Qed.

Lemma puts_idemp (log : list (path * entry)) (m : fs) :
  puts log (puts log m) = puts log m.
Proof.
  rewrite !puts_union, (assoc_L (∪)). by rewrite (idemp_L (∪)).
Qed.

Lemma replays_ret : replays Some.
Proof.
  intros s s' [= ->]. exists []. split; [done|].
  split; [apply kinds_kept_refl|].
  intros t _. split; [done|apply kinds_kept_refl].
Qed.

Lemma replays_fail : replays (λ _, None).
Proof. by intros s s' ?. Qed.

Lemma replays_bind (f g : fs → option fs) :
  replays f → replays g → replays (λ m, m' ← f m; g m').
Proof.
  intros Hf Hg s s'' H.
  destruct (f s) as [s'|] eqn:Hfs; simpl in H; [|done].
  destruct (Hf _ _ Hfs) as (log1 & -> & Hk1 & Hr1).
  destruct (Hg _ _ H) as (log2 & -> & Hk2 & Hr2).
  exists (log1 ++ log2). split; [by rewrite puts_app|].
  split; [by eapply kinds_kept_trans|].
  intros t Ht.
  destruct (Hr1 t) as [Hft Hkt]; [by eapply kinds_kept_trans|].
  rewrite Hft. simpl.
  destruct (Hr2 (puts log1 t)) as [Hgt Hkt2]; [by eapply kinds_kept_trans|].
  rewrite puts_app. split; [done|by eapply kinds_kept_trans].
Qed.

Lemma replays_for_each {A} (l : list A) (body : A → fs → option fs) :
  (∀ a, replays (body a)) → replays (for_each l body).
Proof.
  intros Hbody. induction l as [|a l IH]; simpl.
  - apply replays_ret.
  - by apply (replays_bind (body a) (for_each l body)).
Qed.

Lemma replays_idempotent (f : fs → option fs) (m m' : fs) :
  replays f → f m = Some m' → f m' = Some m'.
Proof.
  intros Hf Hm. destruct (Hf _ _ Hm) as (log & -> & _ & Hr).
  destruct (Hr (puts log m)) as [-> _]; [apply kinds_kept_refl|].
  by rewrite puts_idemp.
Qed.

Lemma replays_mkdir_exist_ok (p : path) : replays (mkdir_exist_ok p).
Proof.
  intros s s' H. unfold mkdir_exist_ok in H.
  destruct (isdir p s) eqn:Hd.
  - simplify_eq. exists []. split; [done|]. split; [apply kinds_kept_refl|].
    intros t Ht. unfold mkdir_exist_ok. rewrite (isdir_kept _ _ _ Ht Hd).
    split; [done|apply kinds_kept_refl].
  - destruct (isdir (dirname p) s) eqn:Hpar; simpl in H; [|done].
    destruct (s !! p) eqn:Hp; [done|]. simplify_eq.
    exists [(p, EDir)]. split; [done|].
    split. { apply kinds_kept_insert. intros x. by rewrite Hp. }
    intros t Ht.
    assert (t !! p = Some EDir) as Htp.
    { eapply kinds_kept_dir; [done|]. apply lookup_insert_eq. }
    assert (p ≠ []) as Hne by (by intros ->).
    unfold mkdir_exist_ok. rewrite (proj2 (isdir_lookup t p Hne) Htp).
    simpl. rewrite insert_id by done. split; [done|apply kinds_kept_refl].
Qed.

Lemma replays_makedirs (p : path) : replays (makedirs p).
Proof. apply replays_for_each, replays_mkdir_exist_ok. Qed.

Lemma write_text_lookup (p : path) (c : string) (s s' : fs) :
  write_text p c s = Some s' → s' !! p = Some (EFile c).
Proof.
  unfold write_text. destruct (isdir _ _); simpl; [|done].
  destruct (s !! p) as [[]|]; intros; simplify_eq; apply lookup_insert_eq.
Qed.

Lemma replays_write_text (p : path) (c : string) : replays (write_text p c).
Proof.
  intros s s' H. unfold write_text in H.
  destruct (isdir (dirname p) s) eqn:Hpar; simpl in H; [|done].
  assert (s !! p ≠ Some EDir ∧ s' = <[p := EFile c]> s) as [Hp ->].
  { destruct (s !! p) as [[]|]; by simplify_eq. }
  exists [(p, EFile c)]. split; [done|].
  assert (kinds_kept s (<[p := EFile c]> s)) as Hk.
  { apply kinds_kept_insert. by intros [] ?. }
  split; [done|].
  intros t Ht.
  destruct (kinds_kept_file _ _ p c Ht) as [c' Htp]; [apply lookup_insert_eq|].
  unfold write_text.
  rewrite (isdir_kept s t (dirname p)); [|by eapply kinds_kept_trans|done].
  rewrite Htp. simpl. split; [done|].
  apply kinds_kept_insert. intros x. rewrite Htp. by intros [= <-].
Qed.

Lemma replays_save (p : path) (c : string) : replays (save p c).
Proof.
  apply (replays_bind (makedirs (dirname p)) (write_text p c)).
  - apply replays_makedirs.
  - apply replays_write_text.
Qed.

Lemma replays_copy2 (name c : string) (dst : path) : replays (copy2 name c dst).
Proof.
  intros s s' H. unfold copy2 in H.
  destruct (isdir dst s) eqn:Hd.
  - destruct (replays_write_text _ _ _ _ H) as (log & -> & Hk & Hr).
    exists log. split; [done|]. split; [done|]. intros t Ht.
    unfold copy2.
    rewrite (isdir_kept s t dst); [by apply Hr|by eapply kinds_kept_trans|done].
  - pose proof (write_text_lookup _ _ _ _ H) as Hdst.
    destruct (replays_write_text _ _ _ _ H) as (log & -> & Hk & Hr).
    exists log. split; [done|]. split; [done|]. intros t Ht.
    unfold copy2.
    destruct (kinds_kept_file _ _ _ _ Ht Hdst) as [c' Htd].
    assert (isdir dst t = false) as ->; [|by apply Hr].
    unfold isdir. destruct dst; [done|]. by rewrite Htd.
Qed.

Lemma replays_copy (pattern : string) (src : node) (dst : path) :
  replays (copy pattern src dst).
Proof.
  unfold copy. destruct (child src pattern) as [[content|]|];
    try apply replays_ret.
  apply (replays_bind (makedirs dst) (copy2 pattern content (dst ++ [pattern]))).
  - apply replays_makedirs.
  - apply replays_copy2.
Qed.

Lemma replays_package (os_name : string) (self : TinyExrConan) :
  replays (package os_name self).
Proof.
  unfold package.
  apply (replays_bind (makedirs ["licenses"])); [apply replays_makedirs|].
  destruct (_extracted_license self) as [license|]; simpl; [|apply replays_fail].
  apply (replays_bind (save _ license)); [apply replays_save|].
  apply (replays_bind (copy _ _ _)); [apply replays_copy|].
  destruct (header_only self); simpl; [apply replays_ret|].
  apply (replays_bind (makedirs ["lib"])); [apply replays_makedirs|].
  apply (replays_bind (for_each _ _)).
  { apply replays_for_each. intros [[root dirs] files].
    apply replays_for_each. intros fname.
    cbv beta.
    destruct (_ || _); [apply replays_copy|apply replays_ret]. }
  apply (replays_bind (makedirs ["bin"])); [apply replays_makedirs|].
  apply replays_for_each. intros [[root dirs] files].
  apply replays_for_each. intros fname.
  cbv beta.
  destruct (_ && _); [apply replays_copy|apply replays_ret].
Qed.

(** ** The package folder: no failure on the layout of a package *)

Lemma layout_empty : layout ∅.
Proof. intros p e. by rewrite lookup_empty. Qed.

Lemma layout_insert_dir (d : string) (m : fs) :
  layout m → layout (<[[d] := EDir]> m).
Proof.
  intros Hm p e. destruct (decide ([d] = p)) as [<-|Hne].
  - rewrite lookup_insert_eq. intros [= <-]. by left.
  - rewrite lookup_insert_ne by done. apply Hm.
Qed.

Lemma layout_insert_file (d name c : string) (m : fs) :
  layout m → layout (<[[d; name] := EFile c]> m).
Proof.
  intros Hm p e. destruct (decide ([d; name] = p)) as [<-|Hne].
  - rewrite lookup_insert_eq. intros [= <-]. by right.
  - rewrite lookup_insert_ne by done. apply Hm.
Qed.

Lemma makedirs_layout (d : string) (m : fs) :
  layout m →
  ∃ m', makedirs [d] m = Some m' ∧ layout m' ∧ m' !! [d] = Some EDir.
Proof.
  intros Hm. change (makedirs [d] m) with (mkdir_exist_ok [d] m ≫= Some).
  unfold mkdir_exist_ok, isdir. change (dirname [d]) with (@nil string).
  destruct (m !! [d]) as [e|] eqn:Hd.
  - destruct (Hm _ _ Hd) as [[_ ->]|[? _]]; [|done]. simpl. eauto.
  - simpl. eexists. split; [done|].
    split; [by apply layout_insert_dir|apply lookup_insert_eq].
Qed.

Lemma write_text_layout (d name c : string) (m : fs) :
  layout m → m !! [d] = Some EDir →
  ∃ m', write_text [d; name] c m = Some m' ∧ layout m'.
Proof.
  intros Hm Hd. unfold write_text, isdir.
  change (dirname [d; name]) with [d]. rewrite Hd. cbn [negb].
  exists (<[[d; name] := EFile c]> m).
  split; [|by apply layout_insert_file].
  destruct (m !! [d; name]) as [e|] eqn:He; [|done].
  destruct (Hm _ _ He) as [[? _]|[_ ?]]; [done|]. by destruct e.
Qed.

Lemma total_ret : total_on_layout Some.
Proof. intros m Hm. eauto. Qed.

Lemma total_bind (f g : fs → option fs) :
  total_on_layout f → total_on_layout g →
  total_on_layout (λ m, m' ← f m; g m').
Proof.
  intros Hf Hg m Hm. destruct (Hf m Hm) as (m1 & -> & Hm1). simpl. auto.
Qed.

Lemma total_for_each {A} (l : list A) (body : A → fs → option fs) :
  (∀ a, total_on_layout (body a)) → total_on_layout (for_each l body).
Proof.
  intros Hbody. induction l as [|a l IH]; simpl.
  - apply total_ret.
  - by apply (total_bind (body a) (for_each l body)).
Qed.

Lemma total_makedirs (d : string) : total_on_layout (makedirs [d]).
Proof.
  intros m Hm. destruct (makedirs_layout d m Hm) as (m' & ? & ? & _). eauto.
Qed.

Lemma total_save (d name c : string) : total_on_layout (save [d; name] c).
Proof.
  intros m Hm. unfold save. change (dirname [d; name]) with [d].
  destruct (makedirs_layout d m Hm) as (m1 & -> & Hm1 & Hd). simpl.
  by apply write_text_layout.
Qed.

Lemma total_copy (pattern : string) (src : node) (d : string) :
  total_on_layout (copy pattern src [d]).
Proof.
  intros m Hm. unfold copy.
  destruct (child src pattern) as [[content|]|]; eauto.
  destruct (makedirs_layout d m Hm) as (m1 & -> & Hm1 & Hd). simpl.
  unfold copy2.
  assert (isdir [d; pattern] m1 = false) as ->.
  { unfold isdir. destruct (m1 !! [d; pattern]) as [e|] eqn:He; [|done].
    destruct (Hm1 _ _ He) as [[? _]|[_ ?]]; [done|]. by destruct e. }
  by apply write_text_layout.
Qed.

Lemma read_isfile (folder : node) (name : string) :
  os_path.isfile folder name = true → ∃ c, read folder name = Some c.
Proof.
  unfold os_path.isfile, read. destruct (child folder name) as [[c|]|]; eauto; done.
Qed.

Lemma extracted_license_total (self : TinyExrConan) :
  ∃ license, _extracted_license self = Some license.
Proof.
  unfold _extracted_license.
  destruct (os_path.isfile _ "LICENSE") eqn:Hlic.
  - by apply read_isfile.
  - destruct (os_path.isfile _ "tinyexr.h") eqn:Hhdr; [|eauto].
    destruct (read_isfile _ _ Hhdr) as [content ->].
    cbn [fmap option_fmap option_map mbind option_bind].
    rewrite extracted_license_range. simpl. eauto.
Qed.

Lemma total_package (os_name : string) (self : TinyExrConan) :
  total_on_layout (package os_name self).
Proof.
  unfold package.
  apply (total_bind (makedirs ["licenses"])); [apply total_makedirs|].
  destruct (extracted_license_total self) as [license ->]. simpl.
  apply (total_bind (save _ license)); [apply total_save|].
  apply (total_bind (copy _ _ _)); [apply total_copy|].
  destruct (header_only self); simpl; [apply total_ret|].
  apply (total_bind (makedirs ["lib"])); [apply total_makedirs|].
  apply (total_bind (for_each _ _)).
  { apply total_for_each. intros [[root dirs] files].
    apply total_for_each. intros fname. cbv beta.
    destruct (_ || _); [apply total_copy|apply total_ret]. }
  apply (total_bind (makedirs ["bin"])); [apply total_makedirs|].
  apply total_for_each. intros [[root dirs] files].
  apply total_for_each. intros fname. cbv beta.
  destruct (_ && _); [apply total_copy|apply total_ret].
Qed.

(** ** Packaging *)

(** C7: [package] is idempotent.  From an empty package folder it
    completes, and whenever it completes, from whatever folder, running it
    again on its outcome with the same source tree, build tree, options
    and build mode completes and leaves the outcome as it is. *)
Theorem package_idempotent (os_name : string) (self : TinyExrConan) :
  (∃ m', package os_name self ∅ = Some m') ∧
  (∀ m m', package os_name self m = Some m' →
           package os_name self m' = Some m').
Proof.
  split.
  - destruct (total_package os_name self ∅ layout_empty) as (m' & ? & _). eauto.
  - intros m m'. apply replays_idempotent, replays_package.
Qed.

Lemma package_idempotent_witness :
  package "posix" compiled_recipe compiled_package = Some compiled_package.
Proof.
  apply (proj2 (package_idempotent "posix" compiled_recipe) ∅).
  by_evaluation.
Defined.

Lemma makedirs_fresh (d : string) (m : fs) :
  m !! [d] = None → makedirs [d] m = Some (<[[d] := EDir]> m).
Proof.
  intros Hd. change (makedirs [d] m) with (mkdir_exist_ok [d] m ≫= Some).
  unfold mkdir_exist_ok, isdir. change (dirname [d]) with (@nil string).
  by rewrite Hd.
Qed.

Lemma makedirs_existing (d : string) (m : fs) :
  m !! [d] = Some EDir → makedirs [d] m = Some m.
Proof.
  intros Hd. change (makedirs [d] m) with (mkdir_exist_ok [d] m ≫= Some).
  unfold mkdir_exist_ok, isdir. by rewrite Hd.
Qed.

Lemma write_text_fresh (d name c : string) (m : fs) :
  m !! [d] = Some EDir → m !! [d; name] = None →
  write_text [d; name] c m = Some (<[[d; name] := EFile c]> m).
Proof.
  intros Hd Hn. unfold write_text, isdir.
  change (dirname [d; name]) with [d]. by rewrite Hd, Hn.
Qed.

Lemma save_fresh (d name c : string) (m : fs) :
  m !! [d] = Some EDir → m !! [d; name] = None →
  save [d; name] c m = Some (<[[d; name] := EFile c]> m).
Proof.
  intros Hd Hn. unfold save. change (dirname [d; name]) with [d].
  rewrite makedirs_existing by done. simpl. by apply write_text_fresh.
Qed.

Lemma copy_fresh (pattern content : string) (src : node) (d : string) (m : fs) :
  child src pattern = Some (File content) →
  m !! [d] = None → m !! [d; pattern] = None →
  copy pattern src [d] m
  = Some (<[[d; pattern] := EFile content]> (<[[d] := EDir]> m)).
Proof.
  intros Hc Hd Hn. unfold copy. rewrite Hc, makedirs_fresh by done. simpl.
  unfold copy2, isdir. change ([d] ++ [pattern]) with [d; pattern].
  rewrite lookup_insert_ne, Hn by done.
  apply write_text_fresh; [apply lookup_insert_eq|].
  by rewrite lookup_insert_ne.
Qed.

Lemma copy_no_match (pattern : string) (src : node) (dst : path) (m : fs) :
  read src pattern = None → copy pattern src dst m = Some m.
Proof.
  unfold read, copy. by destruct (child src pattern) as [[]|].
Qed.

(** C3 (as amended): in HeaderOnly mode [package], run on an empty package
    folder, completes and leaves the licenses directory with the extracted
    LICENSE and, when the source tree has the header, the include
    directory with tinyexr.h, and nothing else: no lib or bin directory is
    created and nothing is put below them.  [package_info] declares no
    library and no binary directory. *)
Theorem package_header_only (os_name : string) (self : TinyExrConan) :
  build_mode self = HeaderOnly →
  ∃ license m,
    _extracted_license self = Some license ∧
    package os_name self ∅ = Some m ∧
    m !! ["licenses"] = Some EDir ∧
    m !! ["licenses"; "LICENSE"] = Some (EFile license) ∧
    m !! ["include"; "tinyexr.h"] = EFile <$> read (source_folder self) "tinyexr.h" ∧
    (∀ p, is_Some (m !! p) →
          p ∈ [["licenses"]; ["licenses"; "LICENSE"];
               ["include"]; ["include"; "tinyexr.h"]]) ∧
    (∀ p, m !! ("lib" :: p) = None ∧ m !! ("bin" :: p) = None) ∧
    libdirs (cpp_info (package_info self)) = [] ∧
    bindirs (cpp_info (package_info self)) = [].
Proof.
  unfold build_mode. destruct (header_only self) eqn:Hho; [intros _|done].
  destruct (extracted_license_total self) as [license Hlic].
  exists license.
  assert (package os_name self ∅
          = copy "tinyexr.h" (source_folder self) ["include"]
              (<[["licenses"; "LICENSE"] := EFile license]>
                 (<[["licenses"] := EDir]> ∅))) as Hpkg.
  { unfold package. rewrite makedirs_fresh by done. simpl.
    rewrite Hlic. simpl. rewrite save_fresh; [|done..]. simpl.
    rewrite Hho. simpl. by destruct (copy _ _ _ _). }
  assert (libdirs (cpp_info (package_info self)) = [] ∧
          bindirs (cpp_info (package_info self)) = []) as Hinfo.
  { unfold package_info. rewrite Hho. by destruct (_ && _). }
  destruct (read (source_folder self) "tinyexr.h") as [header|] eqn:Hhdr.
  - eexists. split; [done|]. split.
    { rewrite Hpkg. apply copy_fresh; [|done..].
      unfold read in Hhdr. destruct (child _ _) as [[]|]; by simplify_eq. }
    split_and!; try done.
    + intros p [e He].
      repeat (apply lookup_insert_Some in He as [[<- _]|[_ He]]; [set_solver|]).
      by rewrite lookup_empty in He.
    + intros p. by rewrite !lookup_insert_ne by done.
    + apply Hinfo.
    + apply Hinfo.
  - eexists. split; [done|]. split.
    { rewrite Hpkg. by apply copy_no_match. }
    split_and!; try done.
    + intros p [e He].
      repeat (apply lookup_insert_Some in He as [[<- _]|[_ He]]; [set_solver|]).
      by rewrite lookup_empty in He.
    + intros p. by rewrite !lookup_insert_ne by done.
    + apply Hinfo.
    + apply Hinfo.
Qed.

Lemma package_header_only_witness :
  ∃ license m,
    _extracted_license header_only_recipe = Some license ∧
    package "posix" header_only_recipe ∅ = Some m ∧
    m !! ["licenses"] = Some EDir ∧
    m !! ["licenses"; "LICENSE"] = Some (EFile license) ∧
    m !! ["include"; "tinyexr.h"]
    = EFile <$> read (source_folder header_only_recipe) "tinyexr.h" ∧
    (∀ p, is_Some (m !! p) →
          p ∈ [["licenses"]; ["licenses"; "LICENSE"];
               ["include"]; ["include"; "tinyexr.h"]]) ∧
    (∀ p, m !! ("lib" :: p) = None ∧ m !! ("bin" :: p) = None) ∧
    libdirs (cpp_info (package_info header_only_recipe)) = [] ∧
    bindirs (cpp_info (package_info header_only_recipe)) = [].
Proof. apply (package_header_only "posix" header_only_recipe). reflexivity. Defined.

(** C3 (as stated) fails: for the header-only sample the package holds a
    file that is not a header, licenses/LICENSE, and has neither a lib nor
    a bin directory. *)
Lemma package_header_only_no_lib_bin :
  build_mode header_only_recipe = HeaderOnly ∧
  package "posix" header_only_recipe ∅ = Some header_only_package ∧
  header_only_package !! ["licenses"; "LICENSE"]
  = Some (EFile ("/* BSD-3-Clause */" +:+ Py.nl +:+ "#pragma once")) ∧
  header_only_package !! ["lib"] = None ∧
  header_only_package !! ["bin"] = None.
Proof. repeat split; by_evaluation. Qed.

(** ** The unset attribute *)

Lemma replays_kinds (f : fs → option fs) (s s' : fs) :
  replays f → f s = Some s' → kinds_kept s s'.
Proof. intros Hf Hs. by destruct (Hf _ _ Hs) as (_ & _ & ? & _). Qed.

Lemma makedirs_isdir (d : string) (m m' : fs) :
  makedirs [d] m = Some m' → m' !! [d] = Some EDir.
Proof.
  change (makedirs [d] m) with (mkdir_exist_ok [d] m ≫= Some).
  unfold mkdir_exist_ok, isdir. change (dirname [d]) with (@nil string).
  destruct (m !! [d]) as [[]|] eqn:Hd; simpl; intros; simplify_eq; [done|].
  apply lookup_insert_eq.
Qed.

Lemma replays_copy_loop (select : string → bool) (dst : path)
    (items : list (node * list string * list string)) :
  replays
    (for_each items (λ '(root, _dirs, files),
       for_each files (λ fname m,
         if select fname then copy fname root dst m else Some m))).
Proof.
  apply replays_for_each. intros [[root dirs] files].
  apply replays_for_each. intros fname.
  destruct (select fname); [apply replays_copy|apply replays_ret].
Qed.

(** C10: while [_header_only] is unset every operation does what it does
    in Compiled mode: [package_id] keeps [info], [generate] writes the
    toolchain and the dependency files, [build] configures and builds,
    [package] creates and fills lib and bin as for a compiled release, and
    [package_info] lists the library tinyexr. *)
Theorem unset_header_only_is_compiled (os_name : string) (self : TinyExrConan) :
  _header_only self = None →
  build_mode self = Compiled ∧
  package_id self = self ∧
  generate self = generate (set_header_only false self) ∧
  (∃ variables, generate self = [ToolchainGenerate variables; DepsGenerate]) ∧
  build self = build (set_header_only false self) ∧
  build self = [ApplyPatches; CMakeConfigure; CMakeBuild] ∧
  (∀ m, package os_name self m = package os_name (set_header_only false self) m) ∧
  (∀ m m', package os_name self m = Some m' →
           m' !! ["lib"] = Some EDir ∧ m' !! ["bin"] = Some EDir) ∧
  cpp_info (package_info self) = cpp_info (package_info (set_header_only false self)) ∧
  libs (cpp_info (package_info self)) = ["tinyexr"].
Proof.
  intros Hunset.
  assert (header_only self = false) as Hho by (unfold header_only; by rewrite Hunset).
  split_and!.
  - unfold build_mode. by rewrite Hho.
  - unfold package_id. by rewrite Hho.
  - unfold generate. by rewrite Hho.
  - unfold generate. rewrite Hho. eauto.
  - unfold build. by rewrite Hho.
  - unfold build. by rewrite Hho.
  - intros m. unfold package. by rewrite Hho.
  - intros m m' H. unfold package in H. rewrite Hho in H.
    apply bind_Some in H as (m1 & _ & H).
    destruct (_extracted_license self); simpl in H; [|done].
    apply bind_Some in H as (m2 & _ & H).
    apply bind_Some in H as (m3 & _ & H).
    apply bind_Some in H as (m4 & Hlib & H).
    apply bind_Some in H as (m5 & Hlibs & H).
    apply bind_Some in H as (m6 & Hbin & Hbins).
    pose proof (replays_kinds _ _ _ (replays_makedirs ["bin"]) Hbin) as Hk.
    apply makedirs_isdir in Hlib, Hbin.
    apply (replays_kinds _ _ _ (replays_copy_loop _ _ _)) in Hlibs, Hbins.
    split.
    + eapply kinds_kept_dir; [|exact Hlib].
      eapply kinds_kept_trans; [exact Hlibs|].
      eapply kinds_kept_trans; [exact Hk|exact Hbins].
    + eapply kinds_kept_dir; [exact Hbins|exact Hbin].
  - unfold package_info. by rewrite Hho.
  - unfold package_info. rewrite Hho. by destruct (_ && _).
Qed.

Lemma unset_header_only_is_compiled_witness :
  build_mode fresh_recipe = Compiled ∧
  build fresh_recipe = [ApplyPatches; CMakeConfigure; CMakeBuild] ∧
  libs (cpp_info (package_info fresh_recipe)) = ["tinyexr"].
Proof.
  destruct (unset_header_only_is_compiled "posix" fresh_recipe eq_refl)
    as (Hmode & _ & _ & _ & _ & Hbuild & _ & _ & _ & Hlibs).
  exact (conj Hmode (conj Hbuild Hlibs)).
Defined.

(** ** The package as a log of writes *)

Lemma puts_lookup_sound (log : list (path * entry)) (m : fs) (k : path) (e : entry) :
  puts log m !! k = Some e → (k, e) ∈ log ∨ m !! k = Some e.
Proof.
  revert m. induction log as [|[k' v] log IH]; intros m; simpl; [by right|].
  intros [Hin|Hm]%IH; [left; by right|].
  apply lookup_insert_Some in Hm as [[<- <-]|[_ Hm]]; [left; by left|by right].
Qed.

Lemma puts_lookup_none (log : list (path * entry)) (m : fs) (k : path) :
  k ∉ log.*1 → puts log m !! k = m !! k.
Proof.
  revert m. induction log as [|[k' v] log IH]; intros m; simpl; [done|].
  rewrite not_elem_of_cons. intros [Hne Hnot].
  rewrite IH by done. by rewrite lookup_insert_ne.
Qed.

Lemma puts_lookup_last (log : list (path * entry)) (m : fs) (k : path) (e : entry) :
  (∀ e', (k, e') ∈ log → e' = e) →
  k ∈ log.*1 ∨ m !! k = Some e →
  puts log m !! k = Some e.
Proof.
  revert m. induction log as [|[k' v] log IH]; intros m Hall Hk; simpl.
  - destruct Hk as [Hk|Hk]; [by apply elem_of_nil in Hk|done].
  - apply IH; [intros e' He'; apply Hall; by right|].
    destruct (decide (k' = k)) as [->|Hne].
    + right. rewrite (Hall v) by (by left). apply lookup_insert_eq.
    + destruct Hk as [Hk|Hk].
      * left. simpl in Hk. apply elem_of_cons in Hk as [Hk|Hk]; [done|done].
      * right. by rewrite lookup_insert_ne.
Qed.

Lemma writes_ret : writes Some [].
Proof. intros m Hm. done. Qed.

Lemma writes_bind (f g : fs → option fs) (log1 log2 : list (path * entry)) :
  writes f log1 → writes g log2 → writes (λ m, m' ← f m; g m') (log1 ++ log2).
Proof.
  intros Hf Hg m Hm. destruct (Hf m Hm) as [-> Hm1]. simpl.
  rewrite puts_app. by apply Hg.
Qed.

Lemma writes_for_each {A} (l : list A) (body : A → fs → option fs)
    (log : A → list (path * entry)) :
  (∀ a, writes (body a) (log a)) → writes (for_each l body) (l ≫= log).
Proof.
  intros Hbody. induction l as [|a l IH]; simpl.
  - apply writes_ret.
  - by apply (writes_bind (body a) (for_each l body)).
Qed.

Lemma writes_makedirs (d : string) : writes (makedirs [d]) [([d], EDir)].
Proof.
  intros m Hm. destruct (makedirs_layout d m Hm) as (m' & Hmk & Hm' & Hd).
  assert (m' = <[[d] := EDir]> m) as ->; [|done].
  destruct (m !! [d]) as [e|] eqn:He.
  - destruct (Hm _ _ He) as [[_ ->]|[? _]]; [|done].
    rewrite makedirs_existing in Hmk by done. simplify_eq.
    by rewrite insert_id.
  - rewrite makedirs_fresh in Hmk by done. by simplify_eq.
Qed.

Lemma writes_file (d name c : string) (m : fs) :
  layout m → m !! [d] = Some EDir →
  write_text [d; name] c m = Some (<[[d; name] := EFile c]> m).
Proof.
  intros Hm Hd. unfold write_text, isdir.
  change (dirname [d; name]) with [d]. rewrite Hd. cbn [negb].
  destruct (m !! [d; name]) as [e|] eqn:He; [|done].
  destruct (Hm _ _ He) as [[? _]|[_ ?]]; [done|]. by destruct e.
Qed.

Lemma writes_save (d name c : string) :
  writes (save [d; name] c) [([d], EDir); ([d; name], EFile c)].
Proof.
  intros m Hm. unfold save. change (dirname [d; name]) with [d].
  destruct (writes_makedirs d m Hm) as [-> Hm1]. simpl in *.
  rewrite writes_file; [|done|apply lookup_insert_eq].
  split; [done|by apply layout_insert_file].
Qed.

Lemma writes_copy (pattern : string) (src : node) (d : string) :
  writes (copy pattern src [d]) (copy_log pattern src d).
Proof.
  intros m Hm. unfold copy, copy_log.
  destruct (child src pattern) as [[content|]|]; try done.
  destruct (writes_makedirs d m Hm) as [-> Hm1]. simpl in *.
  unfold copy2.
  assert (isdir [d; pattern] (<[[d] := EDir]> m) = false) as ->.
  { unfold isdir. destruct (_ !! [d; pattern]) as [e|] eqn:He; [|done].
    destruct (Hm1 _ _ He) as [[? _]|[_ ?]]; [done|]. by destruct e. }
  rewrite writes_file; [|done|apply lookup_insert_eq].
  split; [done|by apply layout_insert_file].
Qed.

Lemma writes_copy_loop (select : string → bool) (d : string)
    (items : list (node * list string * list string)) :
  writes
    (for_each items (λ '(root, _dirs, files),
       for_each files (λ fname m,
         if select fname then copy fname root [d] m else Some m)))
    (copy_loop_log select d items).
Proof.
  apply writes_for_each. intros [[root dirs] files].
  apply writes_for_each. intros fname. simpl.
  destruct (select fname); [apply writes_copy|apply writes_ret].
Qed.

Lemma writes_package (os_name : string) (self : TinyExrConan) (license : string) :
  _extracted_license self = Some license →
  writes (package os_name self) (package_log os_name self license).
Proof.
  intros Hlic. unfold package, package_log. rewrite Hlic.
  apply (writes_bind (makedirs ["licenses"]) _ [_]); [apply writes_makedirs|].
  simpl.
  apply (writes_bind (save _ license) _ [_; _]); [apply writes_save|].
  apply (writes_bind (copy _ _ _)); [apply writes_copy|].
  destruct (header_only self); simpl; [apply writes_ret|].
  apply (writes_bind (makedirs ["lib"]) _ [_]); [apply writes_makedirs|].
  apply (writes_bind (for_each _ _));
    [apply (writes_copy_loop is_library)|].
  apply (writes_bind (makedirs ["bin"]) _ [_]); [apply writes_makedirs|].
  apply (writes_copy_loop (is_runtime os_name)).
Qed.

Lemma package_from_empty (os_name : string) (self : TinyExrConan) (m : fs) :
  package os_name self ∅ = Some m →
  ∃ license,
    _extracted_license self = Some license ∧
    m = puts (package_log os_name self license) ∅.
Proof.
  intros Hm. destruct (extracted_license_total self) as [license Hlic].
  exists license. split; [done|].
  destruct (writes_package os_name self license Hlic ∅ layout_empty) as [Hp _].
  congruence.
Qed.

Lemma copy_log_elem (pattern : string) (src : node) (d : string)
    (k : path) (e : entry) :
  (k, e) ∈ copy_log pattern src d ↔
  ∃ c, read src pattern = Some c ∧
       ((k = [d] ∧ e = EDir) ∨ (k = [d; pattern] ∧ e = EFile c)).
Proof.
  unfold copy_log, read. destruct (child src pattern) as [[content|]|].
  - rewrite !elem_of_cons, elem_of_nil. naive_solver.
  - rewrite elem_of_nil. naive_solver.
  - rewrite elem_of_nil. naive_solver.
Qed.

Lemma copy_loop_log_elem (select : string → bool) (d : string)
    (items : list (node * list string * list string)) (k : path) (e : entry) :
  (k, e) ∈ copy_loop_log select d items ↔
  ∃ root dirs files fname c,
    (root, dirs, files) ∈ items ∧ fname ∈ files ∧ select fname = true ∧
    read root fname = Some c ∧
    ((k = [d] ∧ e = EDir) ∨ (k = [d; fname] ∧ e = EFile c)).
Proof.
  unfold copy_loop_log. rewrite list_elem_of_bind. split.
  - intros ([[root dirs] files] & Hin & Hitem). simpl in Hin.
    apply list_elem_of_bind in Hin as (fname & Hin & Hfname).
    destruct (select fname) eqn:Hsel; [|by apply elem_of_nil in Hin].
    apply copy_log_elem in Hin as (c & Hc & Hke).
    by exists root, dirs, files, fname, c.
  - intros (root & dirs & files & fname & c & Hitem & Hfname & Hsel & Hc & Hke).
    exists (root, dirs, files). split; [|done]. simpl.
    apply list_elem_of_bind. exists fname. split; [|done].
    rewrite Hsel. apply copy_log_elem. eauto.
Qed.

Lemma copy_loop_log_keys (select : string → bool) (d : string)
    (items : list (node * list string * list string)) (k : path) :
  k ∈ (copy_loop_log select d items).*1 → ∃ p, k = d :: p.
Proof.
  intros ([k' e] & -> & Hin)%list_elem_of_fmap.
  apply copy_loop_log_elem in Hin
    as (root & dirs & files & fname & c & _ & _ & _ & _ & [[-> _]|[-> _]]);
    eauto.
Qed.

Lemma puts_lookup_is_Some (log : list (path * entry)) (m : fs) (k : path) :
  k ∈ log.*1 → is_Some (puts log m !! k).
Proof.
  revert m. induction log as [|[k' v] log IH]; intros m; simpl.
  - by intros ?%elem_of_nil.
  - intros Hk. destruct (decide (k ∈ log.*1)) as [Hin|Hin]; [by apply IH|].
    apply elem_of_cons in Hk as [->|Hk]; [|done].
    rewrite puts_lookup_none by done. rewrite lookup_insert_eq. eauto.
Qed.

Lemma package_log_elem (os_name : string) (self : TinyExrConan) (license : string)
    (k : path) (e : entry) :
  (k, e) ∈ package_log os_name self license ↔
  (k = ["licenses"] ∧ e = EDir) ∨
  (k = ["licenses"; "LICENSE"] ∧ e = EFile license) ∨
  (k, e) ∈ copy_log "tinyexr.h" (source_folder self) "include" ∨
  (header_only self = false ∧
   ((k = ["lib"] ∧ e = EDir) ∨
    (k, e) ∈ copy_loop_log is_library "lib" (walk (build_folder self)) ∨
    (k = ["bin"] ∧ e = EDir) ∨
    (k, e) ∈ copy_loop_log (is_runtime os_name) "bin" (walk (build_folder self)))).
Proof.
  unfold package_log. destruct (header_only self).
  - rewrite !elem_of_app, !elem_of_cons, !elem_of_nil. naive_solver.
  - rewrite !elem_of_app, !elem_of_cons, elem_of_app, !elem_of_cons, elem_of_nil.
    naive_solver.
Qed.

Lemma package_lookup (os_name : string) (self : TinyExrConan) (m : fs)
    (k : path) (e : entry) :
  package os_name self ∅ = Some m → m !! k = Some e →
  ∃ license,
    _extracted_license self = Some license ∧
    m = puts (package_log os_name self license) ∅ ∧
    (k, e) ∈ package_log os_name self license.
Proof.
  intros (license & Hlic & ->)%package_from_empty Hk.
  exists license. split_and!; [done..|].
  apply puts_lookup_sound in Hk as [Hk|Hk]; [done|].
  by rewrite lookup_empty in Hk.
Qed.

(** ** The compiled package *)

(** Every library of the build tree is packaged: in Compiled mode, a
    readable file of the build tree whose name ends in .lib, .a, .so or
    .dylib is in lib under its own name, whatever directory it was built
    in, with the content of a library of that name of the build tree. *)
Theorem package_libraries_complete (os_name : string) (self : TinyExrConan)
    (m : fs) (root : node) (dirs files : list string) (fname content : string) :
  header_only self = false →
  package os_name self ∅ = Some m →
  (root, dirs, files) ∈ walk (build_folder self) →
  fname ∈ files →
  is_library fname = true →
  read root fname = Some content →
  ∃ c root' dirs' files',
    m !! ["lib"; fname] = Some (EFile c) ∧
    (root', dirs', files') ∈ walk (build_folder self) ∧
    fname ∈ files' ∧ read root' fname = Some c.
Proof.
  intros Hho Hm Hitem Hfname Hlib Hread.
  destruct (package_from_empty _ _ _ Hm) as (license & _ & Hlog).
  assert (is_Some (m !! ["lib"; fname])) as [e He].
  { rewrite Hlog. apply puts_lookup_is_Some.
    apply list_elem_of_fmap. exists (["lib"; fname], EFile content).
    split; [done|]. apply package_log_elem. do 3 right. split; [done|]. right. left.
    apply copy_loop_log_elem. exists root, dirs, files, fname, content. eauto 10. }
  destruct (package_lookup _ _ _ _ _ Hm He) as (? & _ & _ & Hin).
  apply package_log_elem in Hin
    as [[? _]|[[? _]|[Hin|(_ & [[? _]|[Hin|[[? _]|Hin]]])]]]; simplify_eq.
  - apply copy_log_elem in Hin as (c & _ & [[? _]|[? _]]); simplify_eq.
  - apply copy_loop_log_elem in Hin
      as (root' & dirs' & files' & fname' & c & ? & ? & _ & ? & [[? _]|[? ->]]);
      simplify_eq.
    exists c, root', dirs', files'. eauto.
  - apply copy_loop_log_elem in Hin
      as (root' & dirs' & files' & fname' & c & ? & ? & _ & ? & [[? _]|[? _]]);
      simplify_eq.
Qed.

(** Nothing else gets into lib: in a package built from an empty folder,
    an entry at or below lib exists only in Compiled mode and is either
    the directory itself or, directly below it, a copy of a file of the
    build tree whose name ends in .lib, .a, .so or .dylib. *)
Theorem package_lib_only_libraries (os_name : string) (self : TinyExrConan)
    (m : fs) (p : path) (e : entry) :
  package os_name self ∅ = Some m →
  m !! ("lib" :: p) = Some e →
  header_only self = false ∧
  ((p = [] ∧ e = EDir) ∨
   ∃ fname c root dirs files,
     p = [fname] ∧ e = EFile c ∧ is_library fname = true ∧
     (root, dirs, files) ∈ walk (build_folder self) ∧
     fname ∈ files ∧ read root fname = Some c).
Proof.
  intros Hm He.
  destruct (package_lookup _ _ _ _ _ Hm He) as (? & _ & _ & Hin).
  apply package_log_elem in Hin
    as [[? _]|[[? _]|[Hin|(Hho & [[? ->]|[Hin|[[? _]|Hin]]])]]]; simplify_eq.
  - apply copy_log_elem in Hin as (c & _ & [[? _]|[? _]]); simplify_eq.
  - by eauto.
  - apply copy_loop_log_elem in Hin
      as (root & dirs & files & fname & c & ? & ? & ? & ? & [[? ->]|[? ->]]);
      simplify_eq; [by eauto|].
    split; [done|]. right. exists fname, c, root, dirs, files. eauto 10.
  - apply copy_loop_log_elem in Hin
      as (root & dirs & files & fname & c & ? & ? & ? & ? & [[? _]|[? _]]);
      simplify_eq.
Qed.

Lemma package_lib_only_libraries_witness :
  header_only compiled_recipe = false ∧
  ((["libtinyexr.a"] = [] ∧ EFile "AR" = EDir) ∨
   ∃ fname c root dirs files,
     ["libtinyexr.a"] = [fname] ∧ EFile "AR" = EFile c ∧
     is_library fname = true ∧
     (root, dirs, files) ∈ walk (build_folder compiled_recipe) ∧
     fname ∈ files ∧ read root fname = Some c).
Proof.
  apply (package_lib_only_libraries "posix" compiled_recipe compiled_package);
    by_evaluation.
Defined.

(** Only a Windows build fills bin: in a package built from an empty
    folder, an entry at or below bin is either the directory itself or,
    on a machine whose os.name is nt, a copy of a file of the build tree
    whose name ends in .exe or .dll; elsewhere bin stays empty. *)
Theorem package_bin_only_runtime (os_name : string) (self : TinyExrConan)
    (m : fs) (p : path) (e : entry) :
  package os_name self ∅ = Some m →
  m !! ("bin" :: p) = Some e →
  header_only self = false ∧
  ((p = [] ∧ e = EDir) ∨
   ∃ fname c root dirs files,
     os_name = "nt" ∧ p = [fname] ∧ e = EFile c ∧
     (Py.endswith fname ".exe" = true ∨ Py.endswith fname ".dll" = true) ∧
     (root, dirs, files) ∈ walk (build_folder self) ∧
     fname ∈ files ∧ read root fname = Some c).
Proof.
  intros Hm He.
  destruct (package_lookup _ _ _ _ _ Hm He) as (? & _ & _ & Hin).
  apply package_log_elem in Hin
    as [[? _]|[[? _]|[Hin|(Hho & [[? _]|[Hin|[[? ->]|Hin]]])]]]; simplify_eq.
  - apply copy_log_elem in Hin as (c & _ & [[? _]|[? _]]); simplify_eq.
  - apply copy_loop_log_elem in Hin
      as (root & dirs & files & fname & c & ? & ? & ? & ? & [[? _]|[? _]]);
      simplify_eq.
  - by eauto.
  - apply copy_loop_log_elem in Hin
      as (root & dirs & files & fname & c & ? & ? & Hsel & ? & [[? ->]|[? ->]]);
      simplify_eq; [by eauto|].
    unfold is_runtime in Hsel.
    apply andb_true_iff in Hsel as [Hnt%String.eqb_eq Hsuffix%orb_true_iff].
    split; [done|]. right. exists fname, c, root, dirs, files. eauto 10.
Qed.

Lemma package_bin_only_runtime_witness :
  header_only compiled_recipe = false ∧
  ((["tinyexr.dll"] = [] ∧ EFile "DLL" = EDir) ∨
   ∃ fname c root dirs files,
     "nt" = "nt" ∧ ["tinyexr.dll"] = [fname] ∧ EFile "DLL" = EFile c ∧
     (Py.endswith fname ".exe" = true ∨ Py.endswith fname ".dll" = true) ∧
     (root, dirs, files) ∈ walk (build_folder compiled_recipe) ∧
     fname ∈ files ∧ read root fname = Some c).
Proof.
  apply (package_bin_only_runtime "nt" compiled_recipe windows_package);
    by_evaluation.
Defined.

Lemma package_libraries_complete_witness :
  ∃ c root' dirs' files',
    compiled_package !! ["lib"; "libtinyexr.a"] = Some (EFile c) ∧
    (root', dirs', files') ∈ walk (build_folder compiled_recipe) ∧
    "libtinyexr.a" ∈ files' ∧ read root' "libtinyexr.a" = Some c.
Proof.
  apply (package_libraries_complete "posix" compiled_recipe compiled_package
           sample_build_tree ["CMakeFiles"] ["libtinyexr.a"] "libtinyexr.a" "AR").
  - reflexivity.
  - by_evaluation.
  - apply list_elem_of_here.
  - apply list_elem_of_here.
  - reflexivity.
  - reflexivity.
Defined.

Lemma copy_loop_log_app (select : string → bool) (d : string)
    (items1 items2 : list (node * list string * list string)) :
  copy_loop_log select d (items1 ++ items2)
  = copy_loop_log select d items1 ++ copy_loop_log select d items2.
Proof. apply bind_app. Qed.

(** Libraries are flattened into lib, and of two libraries of the same
    name the one [os.walk] visits last is the one kept: in Compiled mode,
    a library file of a directory of the build tree after which no visited
    directory has a file of that name is in lib with its own content. *)
Theorem package_library_last_wins (os_name : string) (self : TinyExrConan)
    (m : fs) (before after : list (node * list string * list string))
    (root : node) (dirs files : list string) (fname content : string) :
  header_only self = false →
  package os_name self ∅ = Some m →
  walk (build_folder self) = before ++ (root, dirs, files) :: after →
  fname ∈ files →
  is_library fname = true →
  read root fname = Some content →
  (∀ item, item ∈ after → fname ∉ item.2) →
  m !! ["lib"; fname] = Some (EFile content).
Proof.
  intros Hho Hm Hwalk Hfname Hlib Hread Hafter.
  apply package_from_empty in Hm as (license & _ & ->).
  unfold package_log. rewrite Hho, Hwalk.
  rewrite (copy_loop_log_app _ _ before).
  set (header := copy_log _ _ _).
  set (libs_before := copy_loop_log _ _ before).
  set (libs_after := copy_loop_log _ _ (_ :: after)).
  set (bins := copy_loop_log _ "bin" _).
  replace (_ ++ header ++ _)
    with (([(["licenses"], EDir); (["licenses"], EDir);
            (["licenses"; "LICENSE"], EFile license)]
           ++ header ++ (["lib"], EDir) :: libs_before)
          ++ (libs_after ++ (["bin"], EDir) :: bins))
    by (simpl; by rewrite <- !app_assoc).
  rewrite puts_app. subst libs_after bins.
  apply puts_lookup_last.
  - intros e' Hin. rewrite elem_of_app, elem_of_cons in Hin.
    destruct Hin as [Hin|[?|Hin]]; simplify_eq.
    + apply copy_loop_log_elem in Hin
        as (root' & dirs' & files' & fname' & c & Hitem & Hin' & _ & Hc & Hke).
      destruct Hke as [[? _]|[? ->]]; simplify_eq.
      apply elem_of_cons in Hitem as [?|Hitem]; simplify_eq; [congruence|].
      by destruct (Hafter _ Hitem).
    + apply copy_loop_log_elem in Hin
        as (? & ? & ? & ? & ? & _ & _ & _ & _ & [[? _]|[? _]]); simplify_eq.
  - left. rewrite fmap_app, elem_of_app. left.
    apply list_elem_of_fmap. exists (["lib"; fname], EFile content).
    split; [done|]. apply copy_loop_log_elem.
    exists root, dirs, files, fname, content.
    split_and!; [apply list_elem_of_here|done..|by right].
Qed.

Lemma package_library_last_wins_witness :
  duplicate_package !! ["lib"; "libtinyexr.a"] = Some (EFile "NEW").
Proof.
  apply (package_library_last_wins "posix" duplicate_recipe duplicate_package
           [(duplicate_build_tree, ["Release"], ["libtinyexr.a"])] []
           (Dir [("libtinyexr.a", File "NEW")]) [] ["libtinyexr.a"]).
  - reflexivity.
  - by_evaluation.
  - reflexivity.
  - apply list_elem_of_here.
  - reflexivity.
  - reflexivity.
  - intros item Hitem. by apply elem_of_nil in Hitem.
Defined.

(** ** Suffixes *)

Lemma endswith_last (s suffix : string) (c : ascii) :
  Py.endswith s suffix = true →
  String.get (String.length suffix - 1) suffix = Some c →
  String.get (String.length s - 1) s = Some c.
Proof.
  unfold Py.endswith.
  intros [Hle%Nat.leb_le Hsub%String.eqb_eq]%andb_true_iff Hget.
  assert (String.length suffix ≠ 0) as Hk.
  { intros Hz. rewrite Hz in Hget. simpl in Hget.
    destruct suffix; [done|]. simpl in Hz. lia. }
  rewrite <- Hsub in Hget at 2.
  rewrite String.substring_correct1 in Hget by lia.
  rewrite <- Hget. f_equal. lia.
Qed.

Lemma library_not_runtime (os_name fname : string) :
  is_library fname = true → is_runtime os_name fname = false.
Proof.
  unfold is_library, is_runtime, Py.endswith_any. simpl.
  intros Hlib. apply andb_false_iff. right. apply orb_false_iff.
  assert (∃ c, String.get (String.length fname - 1) fname = Some c ∧
               c ≠ "e"%char ∧ c ≠ "l"%char) as (c & Hc & Hne & Hnl).
  { repeat (apply orb_true_iff in Hlib as [Hlib|Hlib]); [..|done];
      eexists; (split; [by apply (endswith_last _ _ _ Hlib)|done]). }
  split.
  - destruct (Py.endswith fname ".exe") eqn:Hexe; [|done].
    pose proof (endswith_last _ _ "e"%char Hexe eq_refl). congruence.
  - destruct (Py.endswith fname ".dll") eqn:Hdll; [|done].
    pose proof (endswith_last _ _ "l"%char Hdll eq_refl). congruence.
Qed.

(** No file is packaged twice: the name of an entry of lib is not the
    name of an entry of bin, since a name that ends in .lib, .a, .so or
    .dylib ends neither in .exe nor in .dll. *)
Theorem package_lib_bin_disjoint (os_name : string) (self : TinyExrConan)
    (m : fs) (fname : string) :
  package os_name self ∅ = Some m →
  is_Some (m !! ["lib"; fname]) →
  m !! ["bin"; fname] = None.
Proof.
  intros Hm [e He].
  destruct (m !! ["bin"; fname]) as [e'|] eqn:He'; [exfalso|done].
  destruct (package_lookup _ _ _ _ _ Hm He) as (? & _ & _ & Hin).
  destruct (package_lookup _ _ _ _ _ Hm He') as (? & _ & _ & Hin').
  assert (is_library fname = true) as Hlib.
  { apply package_log_elem in Hin
      as [[? _]|[[? _]|[Hin|(_ & [[? _]|[Hin|[[? _]|Hin]]])]]]; simplify_eq.
    - apply copy_log_elem in Hin as (c & _ & [[? _]|[? _]]); simplify_eq.
    - apply copy_loop_log_elem in Hin
        as (? & ? & ? & ? & ? & _ & _ & ? & _ & [[? _]|[? _]]); by simplify_eq.
    - apply copy_loop_log_elem in Hin
        as (? & ? & ? & ? & ? & _ & _ & ? & _ & [[? _]|[? _]]); simplify_eq. }
  assert (is_runtime os_name fname = true) as Hrun.
  { apply package_log_elem in Hin'
      as [[? _]|[[? _]|[Hin'|(_ & [[? _]|[Hin'|[[? _]|Hin']]])]]]; simplify_eq.
    - apply copy_log_elem in Hin' as (c & _ & [[? _]|[? _]]); simplify_eq.
    - apply copy_loop_log_elem in Hin'
        as (? & ? & ? & ? & ? & _ & _ & ? & _ & [[? _]|[? _]]); simplify_eq.
    - apply copy_loop_log_elem in Hin'
        as (? & ? & ? & ? & ? & _ & _ & ? & _ & [[? _]|[? _]]); by simplify_eq. }
  rewrite (library_not_runtime os_name fname Hlib) in Hrun. done.
Qed.

Lemma package_lib_bin_disjoint_witness :
  windows_package !! ["bin"; "libtinyexr.a"] = None.
Proof.
  apply (package_lib_bin_disjoint "nt" compiled_recipe windows_package).
  - by_evaluation.
  - vm_compute. eauto.
Defined.

(** ** What the build does not decide *)

Lemma extracted_license_source (s1 s2 : TinyExrConan) :
  source_folder s1 = source_folder s2 →
  _extracted_license s1 = _extracted_license s2.
Proof. intros Hsrc. unfold _extracted_license. by rewrite Hsrc. Qed.

Lemma package_lookup_outside (os_name : string) (self : TinyExrConan)
    (license : string) (m : fs) (p : path) :
  _extracted_license self = Some license →
  package os_name self ∅ = Some m →
  (∀ q, p ≠ "lib" :: q) → (∀ q, p ≠ "bin" :: q) →
  m !! p
  = puts ([(["licenses"], EDir); (["licenses"], EDir);
           (["licenses"; "LICENSE"], EFile license)]
          ++ copy_log "tinyexr.h" (source_folder self) "include") ∅ !! p.
Proof.
  intros Hlic (license' & Hlic' & ->)%package_from_empty Hlib Hbin.
  assert (license' = license) as -> by congruence.
  unfold package_log. rewrite app_assoc, puts_app.
  apply puts_lookup_none.
  intros ([k e] & -> & Hin)%list_elem_of_fmap. simpl in *.
  destruct (header_only self); [by apply elem_of_nil in Hin|].
  rewrite elem_of_cons, elem_of_app, elem_of_cons in Hin.
  destruct Hin as [?|[Hin|[?|Hin]]]; simplify_eq.
  - by eapply Hlib.
  - apply copy_loop_log_elem in Hin
      as (? & ? & ? & ? & ? & _ & _ & _ & _ & [[-> _]|[-> _]]); by eapply Hlib.
  - by eapply Hbin.
  - apply copy_loop_log_elem in Hin
      as (? & ? & ? & ? & ? & _ & _ & _ & _ & [[-> _]|[-> _]]); by eapply Hbin.
Qed.

(** Outside lib and bin the package is a function of the source tree
    alone: two runs on the same source tree, whatever their build modes,
    build trees, options, settings and machines, leave the same licenses
    and include directories. *)
Theorem package_outside_lib_bin (os1 os2 : string) (s1 s2 : TinyExrConan)
    (m1 m2 : fs) (p : path) :
  source_folder s1 = source_folder s2 →
  package os1 s1 ∅ = Some m1 →
  package os2 s2 ∅ = Some m2 →
  (∀ q, p ≠ "lib" :: q) → (∀ q, p ≠ "bin" :: q) →
  m1 !! p = m2 !! p.
Proof.
  intros Hsrc Hm1 Hm2 Hlib Hbin.
  destruct (extracted_license_total s1) as [license Hlic1].
  assert (_extracted_license s2 = Some license) as Hlic2.
  { by rewrite <- (extracted_license_source s1 s2 Hsrc). }
  rewrite (package_lookup_outside _ _ _ _ _ Hlic1 Hm1 Hlib Hbin).
  rewrite (package_lookup_outside _ _ _ _ _ Hlic2 Hm2 Hlib Hbin).
  by rewrite Hsrc.
Qed.

Lemma package_outside_lib_bin_witness :
  windows_package !! ["include"; "tinyexr.h"]
  = duplicate_package !! ["include"; "tinyexr.h"].
Proof.
  apply (package_outside_lib_bin "nt" "posix" compiled_recipe duplicate_recipe).
  - reflexivity.
  - by_evaluation.
  - by_evaluation.
  - intros q. discriminate.
  - intros q. discriminate.
Defined.

(** The layout of a package: in a package built from an empty folder
    every entry is one of the directories licenses, include, lib and bin
    or a regular file directly below one of them. *)
Theorem package_layout (os_name : string) (self : TinyExrConan)
    (m : fs) (p : path) (e : entry) :
  package os_name self ∅ = Some m →
  m !! p = Some e →
  ∃ d, d ∈ ["licenses"; "include"; "lib"; "bin"] ∧
       ((p = [d] ∧ e = EDir) ∨ ∃ name c, p = [d; name] ∧ e = EFile c).
Proof.
  intros Hm He.
  destruct (package_lookup _ _ _ _ _ Hm He) as (license & _ & _ & Hin).
  apply package_log_elem in Hin
    as [[-> ->]|[[-> ->]|[Hin|(_ & [[-> ->]|[Hin|[[-> ->]|Hin]]])]]].
  - exists "licenses". split; [set_solver|by left].
  - exists "licenses". split; [set_solver|right; eauto].
  - exists "include". split; [set_solver|].
    apply copy_log_elem in Hin as (c & _ & [[-> ->]|[-> ->]]); eauto.
  - exists "lib". split; [set_solver|by left].
  - exists "lib". split; [set_solver|].
    apply copy_loop_log_elem in Hin
      as (? & ? & ? & ? & ? & _ & _ & _ & _ & [[-> ->]|[-> ->]]); eauto.
  - exists "bin". split; [set_solver|by left].
  - exists "bin". split; [set_solver|].
    apply copy_loop_log_elem in Hin
      as (? & ? & ? & ? & ? & _ & _ & _ & _ & [[-> ->]|[-> ->]]); eauto.
Qed.

Lemma package_layout_witness :
  ∃ d, d ∈ ["licenses"; "include"; "lib"; "bin"] ∧
       ((["bin"; "tinyexr.dll"] = [d] ∧ EFile "DLL" = EDir) ∨
        ∃ name c, ["bin"; "tinyexr.dll"] = [d; name] ∧ EFile "DLL" = EFile c).
Proof.
  apply (package_layout "nt" compiled_recipe windows_package);
    by_evaluation.
Defined.

(** ** The license, in full *)


Lemma count_newlines_append (a b : string) :
  count_newlines (a +:+ b) = count_newlines a + count_newlines b.
Proof. induction a as [|c a IH]; simpl; [done|]. rewrite IH. lia. Qed.

Lemma readlines_rstrip (s : string) :
  Forall (λ l, count_newlines (Py.rstrip_newline l) = 0) (Py.readlines s).
Proof.
  induction s as [|c rest IH]; simpl; [constructor|].
  destruct (Ascii.eqb c Py.newline) eqn:Hc.
  - constructor; [|done]. simpl. by rewrite Hc.
  - destruct (Py.readlines rest) as [|l ls].
    + constructor; [|done]. simpl. rewrite Hc. simpl. by rewrite Hc.
    + apply Forall_cons in IH as [Hl Hls]. constructor; [|done].
      simpl. destruct (Py.rstrip_newline l) as [|a r]; simpl.
      * rewrite Hc. simpl. by rewrite Hc.
      * rewrite Hc. simpl in Hl. by rewrite Hl.
Qed.

Lemma count_newlines_join (ls : list string) :
  Forall (λ l, count_newlines l = 0) ls →
  count_newlines (Py.join Py.nl ls) = List.length ls - 1.
Proof.
  unfold Py.join. induction 1 as [|l ls Hl Hls IH]; simpl; [done|].
  destruct ls as [|l' ls]; [done|].
  rewrite !count_newlines_append, Hl, IH. simpl. lia.
Qed.

(** The fallback is bounded: when LICENSE is not a regular file, the
    extracted license has at most 40 lines, that is fewer than 40 newline
    characters, however long the header is. *)
Theorem extracted_license_at_most_40_lines (self : TinyExrConan) (license : string) :
  os_path.isfile (source_folder self) "LICENSE" = false →
  _extracted_license self = Some license →
  count_newlines license < 40.
Proof.
  intros Hlic. unfold _extracted_license. rewrite Hlic.
  destruct (os_path.isfile _ "tinyexr.h") eqn:Hhdr.
  - destruct (read_isfile _ _ Hhdr) as [header ->].
    cbn [fmap option_fmap option_map mbind option_bind].
    rewrite extracted_license_range. intros [= <-].
    rewrite count_newlines_join.
    + rewrite length_fmap, length_take. lia.
    + apply Forall_fmap, Forall_take. apply readlines_rstrip.
  - intros [= <-]. simpl. lia.
Qed.

Lemma extracted_license_at_most_40_lines_witness :
  count_newlines ("/* BSD-3-Clause */" +:+ Py.nl +:+ "#pragma once") < 40.
Proof.
  apply (extracted_license_at_most_40_lines header_only_recipe); reflexivity.
Defined.

(** ** Consistency of what the recipe tells its consumers *)

(** The defines follow the toolchain: whenever [generate] writes a
    toolchain, the five defines of [package_info] are its first five
    variables, in order, with 1 for ON and 0 for OFF. *)
Theorem defines_follow_toolchain (self : TinyExrConan)
    (variables : list (string * string)) :
  ToolchainGenerate variables ∈ generate self →
  defines (cpp_info (package_info (set_cpp_info new_cpp_info self)))
  = (λ nv, nv.1 +:+ "=" +:+ (if String.eqb nv.2 "ON" then "1" else "0"))
      <$> take 5 variables.
Proof.
  unfold generate, package_info, with_z_is, header_only.
  destruct self as [[z piz zfp thread openmp sh] st ho src bld inf ci]. simpl.
  destruct (Py.getattr ho false); [by intros ?%elem_of_nil|].
  rewrite !elem_of_cons, elem_of_nil. intros [[= ->]|[|[]]]; [|done].
  destruct z, piz, zfp, thread, openmp; simpl; by repeat case_match.
Qed.

Lemma defines_follow_toolchain_witness :
  defines (cpp_info (package_info (set_cpp_info new_cpp_info compiled_recipe)))
  = (λ nv, nv.1 +:+ "=" +:+ (if String.eqb nv.2 "ON" then "1" else "0"))
      <$> take 5
            [ ("TINYEXR_USE_MINIZ", "ON"); ("TINYEXR_USE_PIZ", "ON");
              ("TINYEXR_USE_ZFP", "OFF"); ("TINYEXR_USE_THREAD", "OFF");
              ("TINYEXR_USE_OPENMP", "OFF"); ("TINYEXR_BUILD_SAMPLE", "OFF");
              ("BUILD_SHARED_LIBS", "OFF") ].
Proof.
  apply (defines_follow_toolchain compiled_recipe). apply list_elem_of_here.
Defined.

(** The toolchain variables: [generate] assigns the same seven variables
    whatever the options, each ON or OFF, never builds the samples, and
    builds shared libraries exactly when [shared] is set. *)
Theorem generate_variables (self : TinyExrConan)
    (variables : list (string * string)) :
  ToolchainGenerate variables ∈ generate self →
  variables.*1
  = [ "TINYEXR_USE_MINIZ"; "TINYEXR_USE_PIZ"; "TINYEXR_USE_ZFP";
      "TINYEXR_USE_THREAD"; "TINYEXR_USE_OPENMP"; "TINYEXR_BUILD_SAMPLE";
      "BUILD_SHARED_LIBS" ] ∧
  Forall (λ nv, nv.2 = "ON" ∨ nv.2 = "OFF") variables ∧
  ("TINYEXR_BUILD_SAMPLE", "OFF") ∈ variables ∧
  (("BUILD_SHARED_LIBS", "ON") ∈ variables ↔ shared (options self) = true).
Proof.
  unfold generate, header_only.
  destruct (Py.getattr _ false); [by intros ?%elem_of_nil|].
  rewrite !elem_of_cons, elem_of_nil. intros [[= ->]|[|[]]]; [|done].
  split_and!.
  - done.
  - unfold on_off.
    repeat (apply Forall_cons_2; [simpl; try case_match; by eauto|]).
    apply Forall_nil_2.
  - set_solver.
  - rewrite !elem_of_cons, elem_of_nil. unfold on_off.
    destruct (shared (options self)); naive_solver.
Qed.

Lemma generate_variables_witness :
  ("TINYEXR_BUILD_SAMPLE", "OFF")
    ∈ [ ("TINYEXR_USE_MINIZ", "ON"); ("TINYEXR_USE_PIZ", "ON");
        ("TINYEXR_USE_ZFP", "OFF"); ("TINYEXR_USE_THREAD", "OFF");
        ("TINYEXR_USE_OPENMP", "OFF"); ("TINYEXR_BUILD_SAMPLE", "OFF");
        ("BUILD_SHARED_LIBS", "OFF") ].
Proof.
  apply (generate_variables compiled_recipe). apply list_elem_of_here.
Defined.

(** The requirements match the defines: miniz is required exactly when
    consumers see TINYEXR_USE_MINIZ=1, zlib exactly when they see
    TINYEXR_USE_MINIZ=0, and zfp exactly when they see TINYEXR_USE_ZFP=1. *)
Theorem requirements_match_defines (self : TinyExrConan) :
  ("miniz/3.0.2" ∈ requirements self
   ↔ "TINYEXR_USE_MINIZ=1"
       ∈ defines (cpp_info (package_info (set_cpp_info new_cpp_info self)))) ∧
  ("zlib/[>=1.2.11 <2]" ∈ requirements self
   ↔ "TINYEXR_USE_MINIZ=0"
       ∈ defines (cpp_info (package_info (set_cpp_info new_cpp_info self)))) ∧
  ("zfp/1.0.0" ∈ requirements self
   ↔ "TINYEXR_USE_ZFP=1"
       ∈ defines (cpp_info (package_info (set_cpp_info new_cpp_info self)))).
Proof.
  unfold requirements, package_info, with_z_is, header_only.
  destruct self as [[z piz zfp thread openmp sh] st ho src bld inf ci]. simpl.
  assert (∀ ci' : CppInfo,
            defines (if bool_decide (os st ∈ ["Linux"; "FreeBSD"]) && thread
                     then system_libs_append "pthread" ci' else ci')
            = defines ci') as Hsys by (intros; by destruct (_ && _)).
  assert (∀ ci' : CppInfo,
            defines (if Py.getattr ho false
                     then set_libdirs [] (set_bindirs [] ci')
                     else set_libs ["tinyexr"] ci')
            = defines ci') as Hmode by (intros; by destruct (Py.getattr _ _)).
  rewrite Hsys, Hmode. simpl.
  destruct z, piz, zfp, thread, openmp; by_evaluation.
Qed.

(** The system library: from the [cpp_info] Conan provides, pthread is
    listed exactly when with_thread is set on Linux or FreeBSD, and is
    then the only system library; the include directory is kept, and the
    library and binary directories are kept in Compiled mode and emptied
    in HeaderOnly mode. *)
Theorem package_info_system_libs (self : TinyExrConan) :
  ("pthread" ∈ system_libs (cpp_info (package_info (set_cpp_info new_cpp_info self)))
   ↔ (os (settings self) = "Linux" ∨ os (settings self) = "FreeBSD")
     ∧ with_thread (options self) = true) ∧
  (∀ l, l ∈ system_libs (cpp_info (package_info (set_cpp_info new_cpp_info self)))
        → l = "pthread") ∧
  includedirs (cpp_info (package_info (set_cpp_info new_cpp_info self)))
  = ["include"] ∧
  libdirs (cpp_info (package_info (set_cpp_info new_cpp_info self)))
  = match build_mode self with HeaderOnly => [] | Compiled => ["lib"] end ∧
  bindirs (cpp_info (package_info (set_cpp_info new_cpp_info self)))
  = match build_mode self with HeaderOnly => [] | Compiled => ["bin"] end.
Proof.
  unfold package_info, build_mode, header_only.
  destruct self as [opts st ho src bld inf ci]. simpl.
  destruct (Py.getattr ho false), (with_thread opts);
    rewrite ?andb_false_r, ?andb_true_r; simpl.
  all: try (case_bool_decide as Hos; simpl;
            rewrite ?elem_of_cons, ?elem_of_nil in Hos;
            split_and!; try done;
            try (intros l; rewrite ?elem_of_cons, ?elem_of_nil; naive_solver);
            rewrite ?elem_of_cons, ?elem_of_nil; naive_solver).
  all: split_and!; try done;
    try (intros l); rewrite ?elem_of_nil; naive_solver.
Qed.

Lemma package_info_system_libs_witness :
  "pthread" = "pthread".
Proof.
  apply (proj1 (proj2 (package_info_system_libs threaded_recipe))).
  apply list_elem_of_here.
Defined.
